(** * Rental statement: pricing rules and statement rendering

    A shallow embedding of [src/rental-statement.ts] and the properties its
    specification states about it.

    The program computes on ECMAScript values, so the embedding starts with the
    three parts of the language the source relies on:
    - [number]: IEEE-754 binary64 values with the rounding of [+], [-] and [*]
      written out;
    - [jsstring]: strings as sequences of UTF-16 code units, with [trim],
      [slice], [padEnd], [padStart], [repeat] and [toFixed];
    - property lookup on plain objects, which falls back to [Object.prototype].
*)

From Stdlib Require Import ZArith NArith List Bool Lia String Ascii.
From Stdlib Require Import Decimal DecimalN.
From Stdlib Require Import Floats.SpecFloat.
From stdpp Require Import base option list gmap.

Local Open Scope Z_scope.

(** ** Numbers *)

(** A [number] is NaN, an infinity, or the finite value [m * 2^e]. The two
    zeros of binary64 are identified: the program never divides, and [toFixed],
    [<] and [Number.isInteger] treat [-0] as [0]. *)
Inductive number : Type :=
  | NaN
  | Inf (neg : bool)
  | Fin (m e : Z).

Module Num.

Definition of_Z (n : Z) : number := Fin n 0.

(** Mantissa of [m * 2^e] once rescaled to the smaller exponent [e0 <= e]. *)
Definition align (m e e0 : Z) : Z := m * 2 ^ (e - e0).

(** Number of binary digits of [|m|]. *)
Definition digits (m : Z) : Z :=
  if m =? 0 then 0 else Z.log2 (Z.abs m) + 1.

(** [m / 2^s] rounded to the nearest integer, ties to the even one. *)
Definition rne (m s : Z) : Z :=
  let q := m / 2 ^ s in
  let r := m mod 2 ^ s in
  match 2 * r ?= 2 ^ s with
  | Lt => q
  | Gt => q + 1
  | Eq => if Z.even q then q else q + 1
  end.

(** The binary64 value nearest to [m * 2^e]: 53 significant bits, no bit
    below [2^-1074], infinity from [2^1024] on. *)
Definition round64 (m e : Z) : number :=
  let s := Z.max 0 (Z.max (digits m - 53) (-1074 - e)) in
  let m' := rne m s in
  let e' := e + s in
  if m' =? 0 then Fin 0 0
  else if 1024 <? digits m' + e' then Inf (m' <? 0)
  else Fin m' e'.

Definition is_zero (x : number) : bool :=
  match x with Fin m _ => m =? 0 | _ => false end.

Definition neg (x : number) : number :=
  match x with
  | NaN => NaN
  | Inf s => Inf (negb s)
  | Fin m e => Fin (- m) e
  end.

Definition add (x y : number) : number :=
  match x, y with
  | NaN, _ | _, NaN => NaN
  | Inf s1, Inf s2 => if eqb s1 s2 then Inf s1 else NaN
  | Inf s, Fin _ _ | Fin _ _, Inf s => Inf s
  | Fin m1 e1, Fin m2 e2 =>
      let e0 := Z.min e1 e2 in
      round64 (align m1 e1 e0 + align m2 e2 e0) e0
  end.

Definition sub (x y : number) : number := add x (neg y).

Definition mul (x y : number) : number :=
  match x, y with
  | NaN, _ | _, NaN => NaN
  | Inf s1, Inf s2 => Inf (xorb s1 s2)
  | Inf s, (Fin m _ as f) | (Fin m _ as f), Inf s =>
      if is_zero f then NaN else Inf (xorb s (m <? 0))
  | Fin m1 e1, Fin m2 e2 => round64 (m1 * m2) (e1 + e2)
  end.

(** [x < y]; every comparison with NaN is false. *)
Definition lt (x y : number) : bool :=
  match x, y with
  | NaN, _ | _, NaN => false
  | Inf true, Inf true => false
  | Inf true, _ => true
  | _, Inf true => false
  | Inf false, _ => false
  | Fin _ _, Inf false => true
  | Fin m1 e1, Fin m2 e2 =>
      let e0 := Z.min e1 e2 in
      align m1 e1 e0 <? align m2 e2 e0
  end.

(** [x > y] is [y < x]. *)
Definition gt (x y : number) : bool := lt y x.

(** [Number.isInteger]. *)
Definition is_integer (x : number) : bool :=
  match x with
  | Fin m e => (0 <=? e) || (m mod 2 ^ (- e) =? 0)
  | _ => false
  end.

(** The integer nearest to zero from [x], for a finite [x]. *)
Definition trunc (m e : Z) : Z :=
  if 0 <=? e then m * 2 ^ e else Z.quot m (2 ^ (- e)).

(** Half units: [halves x = Some k] when [x] is written as the integer
    [k / 2] or as the odd multiple [k] of one half. *)
Definition halves (x : number) : option Z :=
  match x with
  | Fin m 0 => Some (2 * m)
  | Fin m (-1) => Some m
  | _ => None
  end.

End Num.

(** ** Configuration (source lines 4-22) *)

Definition POINTS_PER_RENTAL : number := Num.of_Z 1.

Record tier := { base : number; thresholdDays : number; extraRate : number }.
Record new_tier := { rate : number; new_thresholdDays : number; bonusPoints : number }.

Module PRICING_TIERS.
Definition regular : tier :=
  {| base := Num.of_Z 2; thresholdDays := Num.of_Z 2; extraRate := Fin 3 (-1) |}.
Definition children : tier :=
  {| base := Fin 3 (-1); thresholdDays := Num.of_Z 3; extraRate := Fin 3 (-1) |}.
Definition new : new_tier :=
  {| rate := Num.of_Z 3; new_thresholdDays := Num.of_Z 2; bonusPoints := Num.of_Z 1 |}.
End PRICING_TIERS.

(** ** Pricing (source lines 52-78) *)

Record RentalCharge := { amount : number; points : number }.

Definition calculateRegularCharge (days : number) : RentalCharge :=
  let '{| base := base; thresholdDays := thresholdDays; extraRate := extraRate |} :=
    PRICING_TIERS.regular in
  let amount :=
    if Num.gt days thresholdDays
    then Num.add base (Num.mul (Num.sub days thresholdDays) extraRate)
    else base in
  {| amount := amount; points := POINTS_PER_RENTAL |}.

Definition calculateChildrenCharge (days : number) : RentalCharge :=
  let '{| base := base; thresholdDays := thresholdDays; extraRate := extraRate |} :=
    PRICING_TIERS.children in
  let amount :=
    if Num.gt days thresholdDays
    then Num.add base (Num.mul (Num.sub days thresholdDays) extraRate)
    else base in
  {| amount := amount; points := POINTS_PER_RENTAL |}.

Definition calculateNewReleaseCharge (days : number) : RentalCharge :=
  let '{| rate := rate; new_thresholdDays := thresholdDays; bonusPoints := bonusPoints |} :=
    PRICING_TIERS.new in
  let amount := Num.mul days rate in
  let points :=
    if Num.gt days thresholdDays
    then Num.add POINTS_PER_RENTAL bonusPoints
    else POINTS_PER_RENTAL in
  {| amount := amount; points := points |}.

(** ** Strings *)

(** A string is its sequence of UTF-16 code units; [length], [slice], [padEnd]
    and [padStart] all count code units. *)
Abbreviation jsstring := (list N).

Definition js (s : string) : jsstring :=
  map N_of_ascii (list_ascii_of_string s).
Arguments js s%_string.

Module Str.

Definition space : N := 32%N.
Definition dash : N := 45%N.
Definition newline : N := 10%N.
Definition dot : N := 46%N.
Definition minus : N := 45%N.
Definition quote : N := 34%N.

(** WhiteSpace and LineTerminator code points, the ones [trim] strips. *)
Definition is_whitespace (c : N) : bool :=
  ((9 <=? c) && (c <=? 13) || (c =? 32) || (c =? 160) || (c =? 5760)
   || (8192 <=? c) && (c <=? 8202) || (c =? 8232) || (c =? 8233)
   || (c =? 8239) || (c =? 8287) || (c =? 12288) || (c =? 65279))%N.

Fixpoint trimStart (s : jsstring) : jsstring :=
  match s with
  | c :: s' => if is_whitespace c then trimStart s' else s
  | [] => []
  end.

Definition trimEnd (s : jsstring) : jsstring := rev (trimStart (rev s)).

Definition trim (s : jsstring) : jsstring := trimEnd (trimStart s).

Definition is_empty (s : jsstring) : bool :=
  match s with [] => true | _ => false end.

Definition len (s : jsstring) : Z := Z.of_nat (length s).

(** [s.slice(0, n)] for [0 <= n]. *)
Definition slice0 (n : Z) (s : jsstring) : jsstring := firstn (Z.to_nat n) s.

(** [c.repeat(n)] for a one-unit string [c]. *)
Definition repeat1 (c : N) (n : Z) : jsstring := repeat c (Z.to_nat n).

Definition padEnd (n : Z) (s : jsstring) : jsstring :=
  s ++ repeat1 space (n - len s).

Definition padStart (n : Z) (s : jsstring) : jsstring :=
  repeat1 space (n - len s) ++ s.

(** [lines.join("\n")]. *)
Fixpoint join (lines : list jsstring) : jsstring :=
  match lines with
  | [] => []
  | [l] => l
  | l :: ls => l ++ newline :: join ls
  end.

(** [sub] occurs in [s] as a run of consecutive code units. *)
Fixpoint is_prefix (p s : jsstring) : bool :=
  match p, s with
  | [], _ => true
  | a :: p', b :: s' => (a =? b)%N && is_prefix p' s'
  | _ :: _, [] => false
  end.

Fixpoint includes (sub s : jsstring) : bool :=
  is_prefix sub s || match s with [] => false | _ :: s' => includes sub s' end.

Definition digit (d : Z) : N := Z.to_N (48 + d).

Fixpoint uint_codes (u : uint) : jsstring :=
  match u with
  | Nil => []
  | D0 u => 48%N :: uint_codes u
  | D1 u => 49%N :: uint_codes u
  | D2 u => 50%N :: uint_codes u
  | D3 u => 51%N :: uint_codes u
  | D4 u => 52%N :: uint_codes u
  | D5 u => 53%N :: uint_codes u
  | D6 u => 54%N :: uint_codes u
  | D7 u => 55%N :: uint_codes u
  | D8 u => 56%N :: uint_codes u
  | D9 u => 57%N :: uint_codes u
  end.

(** Decimal digits of a natural number, no leading zero, ["0"] for zero. *)
Definition decimal (n : Z) : jsstring := uint_codes (N.to_uint (Z.to_N n)).

End Str.

(** ** Number formatting *)

Section Rendering.

(** [Number::toString] of the engine on the finite values whose shortest
    round-trip digits are not simply their integer digits: every value that
    is not an integer of magnitude below [2^53]. The program reaches it only
    through [toFixed] on amounts of [10^21] and more, and for a points count
    of [2^53] and more. *)
Variable engine_to_string : number -> jsstring.

Definition below_1e21 (x : number) : bool :=
  match x with
  | Fin m e => Num.lt (Fin (Z.abs m) e) (Fin (10 ^ 21) 0)
  | _ => false
  end.

(** An integer of magnitude below [2^53]: its neighbours are integers too,
    so its shortest round-trip digits are its own. *)
Definition is_safe_integer (x : number) : bool :=
  match x with
  | Fin m e => Num.is_integer x && Num.lt (Fin (Z.abs m) e) (Fin (2 ^ 53) 0)
  | _ => false
  end.

(** [String(x)], the conversion a template literal applies. *)
Definition number_to_string (x : number) : jsstring :=
  match x with
  | NaN => js "NaN"
  | Inf false => js "Infinity"
  | Inf true => js "-Infinity"
  | Fin m e =>
      if is_safe_integer x
      then (if m <? 0 then [Str.minus] else []) ++ Str.decimal (Z.abs (Num.trunc m e))
      else engine_to_string x
  end.

(** The integer [n] for which [n / 100 - a * 2^e] is closest to zero, the
    larger one on a tie ([0 <= a]). *)
Definition hundredths (a e : Z) : Z :=
  if 0 <=? e then 100 * a * 2 ^ e
  else (200 * a + 2 ^ (- e)) / 2 ^ (1 - e).

(** [x.toFixed(2)]. *)
Definition toFixed2 (x : number) : jsstring :=
  match x with
  | Fin m e =>
      if below_1e21 x then
        let n := hundredths (Z.abs m) e in
        (if m <? 0 then [Str.minus] else [])
          ++ Str.decimal (n / 100)
          ++ Str.dot :: Str.digit (n mod 100 / 10) :: Str.digit (n mod 10) :: []
      else number_to_string x
  | _ => number_to_string x
  end.

End Rendering.

(** ** Objects used as tables *)

(** The property names every plain object inherits from [Object.prototype]. *)
Definition object_prototype_names : list jsstring :=
  [ js "constructor"; js "__defineGetter__"; js "__defineSetter__";
    js "hasOwnProperty"; js "__lookupGetter__"; js "__lookupSetter__";
    js "isPrototypeOf"; js "propertyIsEnumerable"; js "toString";
    js "valueOf"; js "__proto__"; js "toLocaleString" ].

(** What [obj[key]] yields on a plain object whose own properties are [obj]:
    an own property, else a member of [Object.prototype], else [undefined]. *)
Inductive property (V : Type) : Type :=
  | Own (v : V)
  | Inherited (name : jsstring)
  | Undefined.
Arguments Own {V} v.
Arguments Inherited {V} name.
Arguments Undefined {V}.

Definition get {V : Type} (obj : gmap jsstring V) (key : jsstring) : property V :=
  match obj !! key with
  | Some v => Own v
  | None =>
      if decide (key ∈ object_prototype_names) then Inherited key else Undefined
  end.

(** ** Completions and console output *)

(** The three ways the program throws: the two [Error]s it constructs, told
    apart by their message, and the engine's own [TypeError].
    - [InvalidInput days]: "Rental days must be a positive integer (received: <days>)"
    - [MovieNotFound id]: "Movie not found for ID: <id>" *)
Inductive error : Type :=
  | InvalidInput (received : number)
  | MovieNotFound (movieID : jsstring)
  | TypeError.

Inductive completion (A : Type) : Type :=
  | Return (a : A)
  | Throw (e : error).
Arguments Return {A} a.
Arguments Throw {A} e.

(** A computation that writes lines to the console and then completes. *)
Definition eff (A : Type) : Type := list jsstring * completion A.

Definition throw {A} (e : error) : eff A := ([], Throw e).
Definition console_log (line : jsstring) : eff unit := ([line], Return tt).

#[global] Instance eff_ret : MRet eff := fun A a => ([], Return a).

#[global] Instance eff_bind : MBind eff := fun A B k c =>
  match c with
  | (out, Return a) => let '(out', r) := k a in (out ++ out', r)
  | (out, Throw e) => (out, Throw e)
  end.

(** ** Data model (source lines 28-55) *)

Record Movie := { title : jsstring; code : jsstring }.
Record Rental := { movieID : jsstring; days : number }.
Record Customer := { name : jsstring; rentals : list Rental }.

(** What [movies[id]] holds when it is truthy: a catalog entry, or a member of
    [Object.prototype], which has neither a [title] nor a [code]. *)
Inductive movie_ref : Type :=
  | MovieObj (m : Movie)
  | MovieInherited (name : jsstring).

Definition movie_title (m : movie_ref) : option jsstring :=
  match m with MovieObj m => Some (title m) | MovieInherited _ => None end.

Definition movie_code (m : movie_ref) : option jsstring :=
  match m with MovieObj m => Some (code m) | MovieInherited _ => None end.

(** [undefined] as a property key or inside a template literal. *)
Definition string_of (s : option jsstring) : jsstring :=
  match s with Some s => s | None => js "undefined" end.

(** ** Dispatch (source lines 80-98) *)

Definition chargeCalculators : gmap jsstring (number -> RentalCharge) :=
  {[ js "regular" := calculateRegularCharge;
     js "children" := calculateChildrenCharge;
     js "new" := calculateNewReleaseCharge ]}.

(** What the call [calculator(days)] gives back: a charge, or the value of a
    member of [Object.prototype], which has no [amount] and no [points]. *)
Inductive charge_value : Type :=
  | Charge (c : RentalCharge)
  | Foreign.

(** Calling a member of [Object.prototype] as a plain function ([this] is
    [undefined]) on a number: [Object] wraps the number, [toString] and
    [isPrototypeOf] return a string and [false]; the other functions convert
    [this] to an object first and throw, and [__proto__] is no function. *)
Definition call_inherited (name : jsstring) : completion charge_value :=
  if decide (name ∈ [js "constructor"; js "toString"; js "isPrototypeOf"])
  then Return Foreign
  else Throw TypeError.

Definition calculateRentalCharge (movie : movie_ref) (days : number) : eff charge_value :=
  if negb (Num.is_integer days) || Num.lt days (Num.of_Z 1) then
    throw (InvalidInput days)
  else
    match get chargeCalculators (string_of (movie_code movie)) with
    | Undefined =>
        console_log (js "Unknown movie code: " ++ Str.quote :: string_of (movie_code movie)
                       ++ [Str.quote]) ;;
        mret (Charge {| amount := Num.of_Z 0; points := POINTS_PER_RENTAL |})
    | Own calculator => mret (Charge (calculator days))
    | Inherited name => ([], call_inherited name)
    end.

(** ** Statement formatting (source lines 104-143) *)

Record RentalSummary := {
  summary_title : option jsstring;
  summary_amount : option number
}.

(** The three variables the loop of [statement] updates. *)
Record totals := {
  totalAmount : number;
  frequentRenterPoints : number;
  rentalSummaries : list RentalSummary
}.

(** [const { amount, points } = v]: a value that is no charge has neither. *)
Definition charge_amount (v : charge_value) : option number :=
  match v with Charge c => Some (amount c) | Foreign => None end.

Definition charge_points (v : charge_value) : option number :=
  match v with Charge c => Some (points c) | Foreign => None end.

(** [undefined] as an operand of [+=] is NaN. *)
Definition to_number (v : option number) : number :=
  match v with Some n => n | None => NaN end.

Definition lift {A} (c : completion A) : eff A := ([], c).

Section Statement.

Variable engine_to_string : number -> jsstring.

Definition formatStatementLine (label : option jsstring) (amount : option number)
  : completion jsstring :=
  let LABEL_WIDTH := 30 in
  let AMOUNT_WIDTH := 8 in
  match label with
  | None => Throw TypeError
  | Some label =>
      if Str.is_empty (Str.trim label) then
        Return (Str.repeat1 Str.dash (LABEL_WIDTH + AMOUNT_WIDTH))
      else
        let displayLabel :=
          if LABEL_WIDTH <? Str.len label
          then Str.slice0 (LABEL_WIDTH - 3) label ++ js "..."
          else label in
        match amount with
        | None => Throw TypeError
        | Some amount =>
            Return (Str.padEnd LABEL_WIDTH displayLabel
                      ++ Str.padStart AMOUNT_WIDTH (toFixed2 engine_to_string amount))
        end
  end.

(** The [for ... of] loop over the rentals, from the state [acc] on. *)
Fixpoint process_rentals (movies : gmap jsstring Movie) (rs : list Rental) (acc : totals)
  : eff totals :=
  match rs with
  | [] => mret acc
  | rental :: rest =>
      movie ← match get movies (movieID rental) with
              | Own m => mret (MovieObj m)
              | Inherited name => mret (MovieInherited name)
              | Undefined => throw (MovieNotFound (movieID rental))
              end;
      charge ← calculateRentalCharge movie (days rental);
      process_rentals movies rest
        {| totalAmount := Num.add (totalAmount acc) (to_number (charge_amount charge));
           frequentRenterPoints :=
             Num.add (frequentRenterPoints acc) (to_number (charge_points charge));
           rentalSummaries :=
             rentalSummaries acc
               ++ [{| summary_title := movie_title movie;
                      summary_amount := charge_amount charge |}] |}
  end.

(** The array [outputLines]. *)
Definition statement_lines (customer : Customer) (movies : gmap jsstring Movie)
  : eff (list jsstring) :=
  acc ← process_rentals movies (rentals customer)
          {| totalAmount := Num.of_Z 0;
             frequentRenterPoints := Num.of_Z 0;
             rentalSummaries := [] |};
  let header := js "Rental Record for " ++ name customer in
  sep1 ← lift (formatStatementLine (Some []) (Some (Num.of_Z 0)));
  body ← mapM (fun r => lift (formatStatementLine (summary_title r) (summary_amount r)))
           (rentalSummaries acc);
  sep2 ← lift (formatStatementLine (Some []) (Some (Num.of_Z 0)));
  owed ← lift (formatStatementLine (Some (js "Amount owed is")) (Some (totalAmount acc)));
  let earned :=
    js "Earned " ++ number_to_string engine_to_string (frequentRenterPoints acc)
      ++ js " frequent renter points" in
  mret ([header; sep1] ++ body ++ [sep2; owed; earned]).

Definition statement (customer : Customer) (movies : gmap jsstring Movie) : eff jsstring :=
  outputLines ← statement_lines customer movies;
  mret (Str.join outputLines ++ [Str.newline]).

End Statement.

(** ** Vocabulary of the properties *)

(** The charge and the console line of the tolerant path. *)
Definition fallback_charge : RentalCharge :=
  {| amount := Num.of_Z 0; points := Num.of_Z 1 |}.

Definition unknown_code_notice (c : jsstring) : jsstring :=
  js "Unknown movie code: " ++ Str.quote :: c ++ [Str.quote].

Definition separator_line : jsstring := repeat Str.dash 38.

(** What [movies[rental.movieID]] is when it is truthy. *)
Definition lookup_movie (movies : gmap jsstring Movie) (r : Rental) : option movie_ref :=
  match get movies (movieID r) with
  | Own m => Some (MovieObj m)
  | Inherited name => Some (MovieInherited name)
  | Undefined => None
  end.

(** One pass of the loop body of [statement] over the state. *)
Definition accumulate (acc : totals) (mc : movie_ref * charge_value) : totals :=
  {| totalAmount := Num.add (totalAmount acc) (to_number (charge_amount mc.2));
     frequentRenterPoints := Num.add (frequentRenterPoints acc) (to_number (charge_points mc.2));
     rentalSummaries :=
       rentalSummaries acc
         ++ [{| summary_title := movie_title mc.1; summary_amount := charge_amount mc.2 |}] |}.

Definition initial_totals : totals :=
  {| totalAmount := Num.of_Z 0; frequentRenterPoints := Num.of_Z 0; rentalSummaries := [] |}.

(** The rental [r] is processed without an error and yields [mc]. *)
Definition priced (movies : gmap jsstring Movie) (r : Rental) (mc : movie_ref * charge_value) : Prop :=
  lookup_movie movies r = Some mc.1
  /\ exists out, calculateRentalCharge mc.1 (days r) = (out, Return mc.2).

(** Reading a displayed amount back: the decimal digits before the point and
    the two after it, as a count of hundredths. *)
Definition digit_value (c : N) : option Z :=
  if ((48 <=? c) && (c <=? 57))%N then Some (Z.of_N c - 48) else None.

Definition push_digit (d : Z) (u : uint) : uint :=
  match d with
  | 0 => D0 u | 1 => D1 u | 2 => D2 u | 3 => D3 u | 4 => D4 u
  | 5 => D5 u | 6 => D6 u | 7 => D7 u | 8 => D8 u | _ => D9 u
  end.

Fixpoint read_uint (s : jsstring) : uint * jsstring :=
  match s with
  | c :: s' =>
      match digit_value c with
      | Some d => let '(u, rest) := read_uint s' in (push_digit d u, rest)
      | None => (Nil, s)
      end
  | [] => (Nil, [])
  end.

Definition read_fixed2 (s : jsstring) : option Z :=
  let '(u, rest) := read_uint s in
  match rest with
  | [p; c1; c0] =>
      match digit_value c1, digit_value c0 with
      | Some d1, Some d0 =>
          if (p =? Str.dot)%N then Some (100 * Z.of_N (N.of_uint u) + 10 * d1 + d0) else None
      | _, _ => None
      end
  | _ => None
  end.

(** The amount a statement line displays: what follows the 30-unit label
    column, without its padding. *)
Definition displayed_amount (line : jsstring) : option Z :=
  read_fixed2 (Str.trimStart (skipn 30 line)).

(** The days of a rental as an integer count, when written as one. *)
Definition days_count (r : Rental) : option Z :=
  match days r with Fin n 0 => Some n | _ => None end.

Definition sum_list (l : list Z) : Z := foldr Z.add 0 l.

(** Totals of a run of priced rentals, as the loop adds them up. *)
Definition sum_amounts (mcs : list (movie_ref * charge_value)) : number :=
  foldl (fun t mc => Num.add t (to_number (charge_amount mc.2))) (Num.of_Z 0) mcs.

Definition sum_points (mcs : list (movie_ref * charge_value)) : number :=
  foldl (fun t mc => Num.add t (to_number (charge_points mc.2))) (Num.of_Z 0) mcs.

(** The scenario of the specification: four movies, one customer. *)
Definition scenario_catalog : gmap jsstring Movie :=
  {[ js "F001" := {| title := js "Ran"; code := js "regular" |};
     js "F002" := {| title := js "Bleu"; code := js "regular" |};
     js "F003" := {| title := js "Sommar"; code := js "children" |};
     js "F004" := {| title := js "Yara"; code := js "new" |} ]}.

Definition martin : Customer :=
  {| name := js "martin";
     rentals := [ {| movieID := js "F001"; days := Num.of_Z 3 |};
                  {| movieID := js "F002"; days := Num.of_Z 1 |};
                  {| movieID := js "F003"; days := Num.of_Z 1 |};
                  {| movieID := js "F004"; days := Num.of_Z 1 |} ] |}.

(** A customer whose first rental has zero days and whose second names a
    movie that is not in the catalog. *)
Definition zero_days_then_missing : Customer :=
  {| name := js "martin";
     rentals := [ {| movieID := js "F001"; days := Num.of_Z 0 |};
                  {| movieID := js "F404"; days := Num.of_Z 1 |} ] |}.

(** A customer whose only rental names no entry of the catalog of the
    scenario, but a member of [Object.prototype]. *)
Definition inherited_id_renter : Customer :=
  {| name := js "martin";
     rentals := [ {| movieID := js "toString"; days := Num.of_Z 1 |} ] |}.

(** A catalog whose only movie has a title of two spaces, and its renter. *)
Definition untitled_catalog : gmap jsstring Movie :=
  {[ js "F001" := {| title := js "  "; code := js "regular" |} ]}.

Definition untitled_renter : Customer :=
  {| name := js "martin";
     rentals := [ {| movieID := js "F001"; days := Num.of_Z 1 |} ] |}.

(** An engine whose exponent notation is never looked at. *)
Definition no_exponent_notation : number -> jsstring := fun _ => [].

(** The lines of the rentals in the array of output lines of a statement of
    [n] rentals, and the sum of the amounts they display. *)
Definition rental_lines (n : nat) (lines : list jsstring) : list jsstring :=
  take n (drop 2 lines).

Definition displayed_sum (ls : list jsstring) : Z :=
  sum_list (omap displayed_amount ls).

Definition displayed_total (n : nat) (lines : list jsstring) : option Z :=
  lines !! (n + 3)%nat ≫= displayed_amount.

(** A customer who keeps a new release for [2^52] days. *)
Definition long_renter : Customer :=
  {| name := js "martin";
     rentals := [ {| movieID := js "F003"; days := Num.of_Z 1 |};
                  {| movieID := js "F004"; days := Num.of_Z (2 ^ 52) |} ] |}.

(** ** Reference arithmetic

    The Standard Library's executable specification of binary64, to compare
    the arithmetic of [Num] with. *)
Module Reference.

Definition to_spec (x : number) : spec_float :=
  match x with
  | NaN => S754_nan
  | Inf s => S754_infinity s
  | Fin m e => binary_normalize 53 1024 m e false
  end.

Definition of_spec (x : spec_float) : number :=
  match x with
  | S754_nan => NaN
  | S754_infinity s => Inf s
  | S754_zero _ => Fin 0 0
  | S754_finite s m e => Fin (if s then Z.neg m else Z.pos m) e
  end.

(** Two numbers denote the same value. *)
Definition same_value (x y : number) : bool :=
  match x, y with
  | NaN, NaN => true
  | Inf a, Inf b => eqb a b
  | Fin m1 e1, Fin m2 e2 =>
      let e0 := Z.min e1 e2 in Num.align m1 e1 e0 =? Num.align m2 e2 e0
  | _, _ => false
  end.

(** Zero, small and large integers, halves, values at the edges of the
    53-bit mantissa, subnormal values, the largest values, and the
    non-finite ones. *)
Definition samples : list number :=
  map (fun x => of_spec (to_spec x))
    [ Fin 0 0; Fin 1 0; Fin 3 0; Fin 3 (-1); Fin (-3) (-1); Fin 7 (-3);
      Fin (2 ^ 52) 0; Fin (2 ^ 53 + 2) 0; Fin (2 ^ 52 + 1) 1; Fin (2 ^ 53 - 1) 0;
      Fin (2 ^ 53 - 1) 971; Fin 3 1000; Fin 1 (-1074); Fin (2 ^ 53 - 1) (-1074);
      Fin (2 ^ 52 + 1) (-1060); Fin 12345678901234567 (-20);
      Fin (-9007199254740993) 3; Fin 7 (-537); Fin 4503599627370497 (-52);
      Fin 3 (-54); Fin (10 ^ 21) 0; Inf true; Inf false; NaN ].

Definition agree2 (f : number -> number -> number)
    (g : spec_float -> spec_float -> spec_float) : bool :=
  forallb (fun x =>
             forallb (fun y => same_value (f x y) (of_spec (g (to_spec x) (to_spec y))))
               samples)
    samples.

End Reference.

(** ** Vocabulary of the further properties *)

(** Days that pass the guard of [calculateRentalCharge]. *)
Definition valid_days (d : number) : Prop :=
  Num.is_integer d = true /\ Num.lt d (Num.of_Z 1) = false.

(** A rental the statement can price: its movie is an entry of the catalog
    whose code is no name inherited from [Object.prototype], and its days are
    a positive integer. *)
Definition well_formed (movies : gmap jsstring Movie) (r : Rental) : Prop :=
  exists m,
    movies !! movieID r = Some m
    /\ (code m ∉ object_prototype_names)
    /\ valid_days (days r).

(** The console line a rental causes: one for a code without a calculator. *)
Definition rental_notice (movies : gmap jsstring Movie) (r : Rental) : list jsstring :=
  match movies !! movieID r with
  | Some m =>
      match chargeCalculators !! code m with
      | Some _ => []
      | None => [unknown_code_notice (code m)]
      end
  | None => []
  end.

Definition expected_notices (movies : gmap jsstring Movie) (rs : list Rental) : list jsstring :=
  flat_map (rental_notice movies) rs.

(** The rental is a new release kept beyond the threshold of two days. *)
Definition earns_bonus (movies : gmap jsstring Movie) (r : Rental) : bool :=
  match movies !! movieID r with
  | Some m => bool_decide (code m = js "new") && Num.gt (days r) (Num.of_Z 2)
  | None => false
  end.

Definition rental_points (movies : gmap jsstring Movie) (r : Rental) : Z :=
  if earns_bonus movies r then 2 else 1.

Definition all_whitespace (s : jsstring) : bool := forallb Str.is_whitespace s.

(** A catalog with a movie of an unknown code, and a customer who rents it
    between two rentals of a regular movie. *)
Definition horror_catalog : gmap jsstring Movie :=
  {[ js "F001" := {| title := js "Ran"; code := js "regular" |};
     js "F013" := {| title := js "Ringu"; code := js "horror" |} ]}.

Definition horror_renter : Customer :=
  {| name := js "martin";
     rentals := [ {| movieID := js "F001"; days := Num.of_Z 1 |};
                  {| movieID := js "F013"; days := Num.of_Z 2 |};
                  {| movieID := js "F001"; days := Num.of_Z 4 |} ] |}.

(** The charge of a well-formed rental. *)
Definition charge_of (movies : gmap jsstring Movie) (r : Rental) (mc : movie_ref * charge_value) : Prop :=
  exists m,
    movies !! movieID r = Some m
    /\ mc = (MovieObj m,
             Charge match chargeCalculators !! code m with
                    | Some calculator => calculator (days r)
                    | None => fallback_charge
                    end).

(** * Properties *)

(** Evaluate the exponent arithmetic of an alignment on closed exponents. *)
Ltac eval_exponents :=
  repeat match goal with
    | |- context [Z.min ?a ?b] =>
        let v := eval vm_compute in (Z.min a b) in change (Z.min a b) with v
    end;
  repeat match goal with
    | |- context [2 ^ (?a - ?b)] =>
        let v := eval vm_compute in (2 ^ (a - b)) in change (2 ^ (a - b)) with v
    end.

(** Let [lia] see through division and remainder by constants. *)
Ltac Zify.zify_post_hook ::= Z.to_euclidean_division_equations.

(** ** Agreement with the reference arithmetic *)

(** On every pair of sample values, sum, difference, product and comparison
    are those of the Standard Library's binary64. *)
Lemma arithmetic_agrees_with_reference :
  Reference.agree2 Num.add (SFadd 53 1024) = true
  /\ Reference.agree2 Num.sub (SFsub 53 1024) = true
  /\ Reference.agree2 Num.mul (SFmul 53 1024) = true
  /\ forallb (fun x =>
                forallb (fun y =>
                           eqb (Num.lt x y)
                             (SFltb (Reference.to_spec x) (Reference.to_spec y)))
                  Reference.samples)
       Reference.samples = true.
Proof. split; [|split; [|split]]; vm_compute; reflexivity. Qed.

(** ** Arithmetic on small values is exact *)

Module NumFacts.
Import Num.

Lemma digits_bound (m : Z) : Z.abs m < 2 ^ 53 -> digits m <= 53.
Proof.
  intros Hm. unfold digits. destruct (Z.eqb_spec m 0) as [|Hne]; [lia|].
  assert (Z.log2 (Z.abs m) < 53); [|lia].
  apply Z.log2_lt_pow2; lia.
Qed.

Lemma rne_0 (m : Z) : rne m 0 = m.
Proof.
  unfold rne. change (2 ^ 0) with 1.
  rewrite Z.div_1_r, Z.mod_1_r. reflexivity.
Qed.

(** A mantissa of at most 53 bits at a moderate exponent is kept as it is. *)
Lemma round64_small (m e : Z) :
  Z.abs m < 2 ^ 53 -> -1074 <= e <= 970 ->
  round64 m e = if m =? 0 then Fin 0 0 else Fin m e.
Proof.
  intros Hm He. pose proof (digits_bound m Hm) as Hd. unfold round64.
  replace (Z.max 0 (Z.max (digits m - 53) (-1074 - e))) with 0 by lia.
  rewrite rne_0, Z.add_0_r.
  destruct (m =? 0); [reflexivity|].
  destruct (Z.ltb_spec 1024 (digits m + e)); [lia|reflexivity].
Qed.

Lemma align_same (m e : Z) : align m e e = m.
Proof. unfold align. rewrite Z.sub_diag. change (2 ^ 0) with 1. lia. Qed.

Lemma lt_of_Z (a b : Z) : lt (of_Z a) (of_Z b) = (a <? b).
Proof. unfold lt, of_Z. cbn [Z.min]. rewrite !align_same. reflexivity. Qed.

Lemma gt_of_Z (a b : Z) : gt (of_Z a) (of_Z b) = (b <? a).
Proof. apply lt_of_Z. Qed.

(** Zero and the values below it are below one. *)
Lemma lt_one_nonpos (m e : Z) : m <= 0 -> lt (Fin m e) (of_Z 1) = true.
Proof.
  intros Hm. unfold lt, of_Z, align. apply Z.ltb_lt.
  assert (0 < 2 ^ (0 - Z.min e 0)) as Hb by (apply Z.pow_pos_nonneg; lia).
  assert (0 <= 2 ^ (e - Z.min e 0)) as Ha by (apply Z.pow_nonneg; lia).
  revert Ha Hb. generalize (2 ^ (0 - Z.min e 0)) (2 ^ (e - Z.min e 0)). intros; nia.
Qed.

Lemma lt_zero_neg (m e : Z) : lt (Fin m e) (of_Z 0) = true -> m < 0.
Proof.
  unfold lt, of_Z, align. intros H%Z.ltb_lt.
  assert (0 <= 2 ^ (e - Z.min e 0)) as Ha by (apply Z.pow_nonneg; lia).
  revert H Ha. generalize (2 ^ (e - Z.min e 0)). intros; nia.
Qed.

(** [days] fails the guard of [calculateRentalCharge]. *)
Lemma invalid_days (d : number) :
  is_zero d = true \/ lt d (of_Z 0) = true \/ is_integer d = false ->
  negb (is_integer d) || lt d (of_Z 1) = true.
Proof.
  intros [Hz | [Hn | Hi]].
  - destruct d as [| |m e]; try discriminate. cbn in Hz.
    apply Z.eqb_eq in Hz. rewrite lt_one_nonpos by lia. apply orb_true_r.
  - destruct d as [|[]|m e]; try discriminate; try reflexivity.
    apply lt_zero_neg in Hn. rewrite lt_one_nonpos by lia. apply orb_true_r.
  - rewrite Hi. reflexivity.
Qed.

Lemma valid_of_Z (n : Z) :
  1 <= n -> negb (is_integer (of_Z n)) || lt (of_Z n) (of_Z 1) = false.
Proof.
  intros Hn. rewrite lt_of_Z. cbn. apply Z.ltb_ge. exact Hn.
Qed.

Lemma sub_of_Z (a b : Z) :
  Z.abs (a - b) < 2 ^ 53 -> sub (of_Z a) (of_Z b) = of_Z (a - b).
Proof.
  intros H. unfold sub, add, neg, of_Z. cbn [Z.min]. rewrite !align_same.
  replace (a + - b) with (a - b) by lia.
  rewrite round64_small by lia.
  destruct (Z.eqb_spec (a - b) 0) as [->|]; reflexivity.
Qed.

Lemma add_halves (x y : number) (a b : Z) :
  halves x = Some a -> halves y = Some b ->
  0 <= a -> 0 <= b -> a + b < 2 ^ 53 ->
  halves (add x y) = Some (a + b).
Proof.
  intros Hx Hy Ha Hb Hab.
  destruct x as [| |m1 [|[]|[]]]; try discriminate;
    destruct y as [| |m2 [|[]|[]]]; try discriminate;
    cbn in Hx, Hy; injection Hx as <-; injection Hy as <-;
    unfold add, align; eval_exponents;
    rewrite round64_small by lia;
    match goal with |- context [?t =? 0] => destruct (Z.eqb_spec t 0) end;
    cbn; f_equal; lia.
Qed.

Lemma mul_three_halves (a : Z) :
  Z.abs (3 * a) < 2 ^ 53 -> a <> 0 -> mul (of_Z a) (Fin 3 (-1)) = Fin (3 * a) (-1).
Proof.
  intros H Ha. unfold mul, of_Z. cbn [Z.add].
  rewrite round64_small by lia.
  destruct (Z.eqb_spec (a * 3) 0); [lia|]. f_equal. lia.
Qed.

Lemma mul_three (a : Z) :
  Z.abs (3 * a) < 2 ^ 53 -> a <> 0 -> mul (of_Z a) (of_Z 3) = of_Z (3 * a).
Proof.
  intros H Ha. unfold mul, of_Z. cbn [Z.add].
  rewrite round64_small by lia.
  destruct (Z.eqb_spec (a * 3) 0); [lia|]. f_equal. lia.
Qed.

End NumFacts.

(** ** Pricing rules *)

Section Pricing.
Import Num NumFacts.

Lemma rule_regular : get chargeCalculators (js "regular") = Own calculateRegularCharge.
Proof. reflexivity. Qed.

Lemma rule_children : get chargeCalculators (js "children") = Own calculateChildrenCharge.
Proof. reflexivity. Qed.

Lemma rule_new : get chargeCalculators (js "new") = Own calculateNewReleaseCharge.
Proof. reflexivity. Qed.

(** With valid days the charge of a movie whose code has a rule is what the
    rule computes, and nothing is logged. *)
Lemma charge_by_rule (m : Movie) (n : Z) (calculator : number -> RentalCharge) :
  1 <= n -> get chargeCalculators (code m) = Own calculator ->
  calculateRentalCharge (MovieObj m) (of_Z n) = ([], Return (Charge (calculator (of_Z n)))).
Proof.
  intros Hn Hrule. unfold calculateRentalCharge.
  rewrite valid_of_Z by exact Hn. cbn [movie_code string_of]. rewrite Hrule. reflexivity.
Qed.

(** Amounts of the two tiered rules in half units, for days up to [2^50]. *)
Lemma regular_amount_exact (n : Z) :
  1 <= n <= 2 ^ 50 ->
  halves (amount (calculateRegularCharge (of_Z n)))
  = Some (if n <=? 2 then 4 else 4 + 3 * (n - 2)).
Proof.
  intros Hn. unfold calculateRegularCharge. cbn -[add mul sub gt of_Z Z.mul].
  rewrite gt_of_Z. destruct (Z.ltb_spec 2 n) as [Hlt|Hle].
  - destruct (Z.leb_spec n 2); [lia|].
    rewrite sub_of_Z, mul_three_halves by lia.
    erewrite (add_halves (of_Z 2) _ 4 (3 * (n - 2))); try reflexivity; lia.
  - destruct (Z.leb_spec n 2); [reflexivity|lia].
Qed.

Lemma children_amount_exact (n : Z) :
  1 <= n <= 2 ^ 50 ->
  halves (amount (calculateChildrenCharge (of_Z n)))
  = Some (if n <=? 3 then 3 else 3 + 3 * (n - 3)).
Proof.
  intros Hn. unfold calculateChildrenCharge. cbn -[add mul sub gt of_Z Z.mul].
  rewrite gt_of_Z. destruct (Z.ltb_spec 3 n) as [Hlt|Hle].
  - destruct (Z.leb_spec n 3); [lia|].
    rewrite sub_of_Z, mul_three_halves by lia.
    erewrite (add_halves (Fin 3 (-1)) _ 3 (3 * (n - 3))); try reflexivity; lia.
  - destruct (Z.leb_spec n 3); [reflexivity|lia].
Qed.

Lemma new_release_amount_exact (n : Z) :
  1 <= n <= 2 ^ 50 ->
  halves (amount (calculateNewReleaseCharge (of_Z n))) = Some (6 * n).
Proof.
  intros Hn. unfold calculateNewReleaseCharge. cbn -[add mul sub gt of_Z Z.mul].
  rewrite mul_three by lia. cbn [halves of_Z]. f_equal. lia.
Qed.

End Pricing.

(** C2. For every positive integer [days] the charge of a regular movie is
    [base] up to [thresholdDays] days and
    [base + (days - thresholdDays) * extraRate] beyond, with one point; the
    charge of a children movie has the same shape with the children tier's
    constants, with one point. The thresholds are 2 and 3 days; up to [2^50]
    days the amounts are the exact values [2 + (days - 2) * 1.5] and
    [1.5 + (days - 3) * 1.5], counted in halves. *)
Theorem regular_and_children_charge (t : jsstring) (n : Z) :
  1 <= n ->
  let days := Num.of_Z n in
  let regular := PRICING_TIERS.regular in
  let children := PRICING_TIERS.children in
  (calculateRentalCharge (MovieObj {| title := t; code := js "regular" |}) days
     = ([], Return (Charge (calculateRegularCharge days)))
   /\ thresholdDays regular = Num.of_Z 2
   /\ points (calculateRegularCharge days) = Num.of_Z 1
   /\ (n <= 2 -> amount (calculateRegularCharge days) = base regular)
   /\ (2 < n ->
       amount (calculateRegularCharge days)
       = Num.add (base regular)
           (Num.mul (Num.sub days (thresholdDays regular)) (extraRate regular)))
   /\ (2 < n <= 2 ^ 50 ->
       Num.halves (amount (calculateRegularCharge days)) = Some (4 + (n - 2) * 3)))
  /\
  (calculateRentalCharge (MovieObj {| title := t; code := js "children" |}) days
     = ([], Return (Charge (calculateChildrenCharge days)))
   /\ thresholdDays children = Num.of_Z 3
   /\ points (calculateChildrenCharge days) = Num.of_Z 1
   /\ (n <= 3 -> amount (calculateChildrenCharge days) = base children)
   /\ (3 < n ->
       amount (calculateChildrenCharge days)
       = Num.add (base children)
           (Num.mul (Num.sub days (thresholdDays children)) (extraRate children)))
   /\ (3 < n <= 2 ^ 50 ->
       Num.halves (amount (calculateChildrenCharge days)) = Some (3 + (n - 3) * 3))).
Proof.
  intros Hn days regular children. split.
  - split; [apply charge_by_rule; [exact Hn|reflexivity]|].
    split; [reflexivity|]. split; [reflexivity|].
    unfold calculateRegularCharge, days. cbn -[Num.add Num.mul Num.sub Num.gt Num.of_Z Z.mul Z.pow].
    rewrite NumFacts.gt_of_Z. repeat split.
    + intros Hle. destruct (Z.ltb_spec 2 n); [lia|reflexivity].
    + intros Hgt. destruct (Z.ltb_spec 2 n); [reflexivity|lia].
    + intros Hr. pose proof (regular_amount_exact n ltac:(lia)) as He.
      unfold calculateRegularCharge in He.
      cbn -[Num.add Num.mul Num.sub Num.gt Num.of_Z Z.mul Z.pow] in He.
      rewrite NumFacts.gt_of_Z in He. rewrite He.
      destruct (Z.leb_spec n 2); [lia|]. f_equal. lia.
  - split; [apply charge_by_rule; [exact Hn|reflexivity]|].
    split; [reflexivity|]. split; [reflexivity|].
    unfold calculateChildrenCharge, days. cbn -[Num.add Num.mul Num.sub Num.gt Num.of_Z Z.mul Z.pow].
    rewrite NumFacts.gt_of_Z. repeat split.
    + intros Hle. destruct (Z.ltb_spec 3 n); [lia|reflexivity].
    + intros Hgt. destruct (Z.ltb_spec 3 n); [reflexivity|lia].
    + intros Hr. pose proof (children_amount_exact n ltac:(lia)) as He.
      unfold calculateChildrenCharge in He.
      cbn -[Num.add Num.mul Num.sub Num.gt Num.of_Z Z.mul Z.pow] in He.
      rewrite NumFacts.gt_of_Z in He. rewrite He.
      destruct (Z.leb_spec n 3); [lia|]. f_equal. lia.
Qed.

Lemma regular_and_children_charge_witness :
  Num.halves (amount (calculateRegularCharge (Num.of_Z 5))) = Some 13
  /\ amount (calculateChildrenCharge (Num.of_Z 2)) = Fin 3 (-1).
Proof.
  pose proof (regular_and_children_charge [] 5 ltac:(lia)) as [Hr _].
  pose proof (regular_and_children_charge [] 2 ltac:(lia)) as [_ Hc].
  split.
  - apply Hr. lia.
  - apply Hc. lia.
Defined.

(** C3. For every positive integer [days] the charge of a new release is
    [days * rate], with [1 + bonusPoints] points beyond [thresholdDays] days
    and one point otherwise. The threshold is 2 days, the bonus makes 2
    points, and up to [2^50] days the amount is the exact value [days * 3]. *)
Theorem new_release_charge (t : jsstring) (n : Z) :
  1 <= n ->
  let days := Num.of_Z n in
  let tier := PRICING_TIERS.new in
  calculateRentalCharge (MovieObj {| title := t; code := js "new" |}) days
    = ([], Return (Charge (calculateNewReleaseCharge days)))
  /\ amount (calculateNewReleaseCharge days) = Num.mul days (rate tier)
  /\ (n <= 2 ^ 50 -> amount (calculateNewReleaseCharge days) = Num.of_Z (n * 3))
  /\ new_thresholdDays tier = Num.of_Z 2
  /\ (n <= 2 -> points (calculateNewReleaseCharge days) = Num.of_Z 1)
  /\ (2 < n ->
      points (calculateNewReleaseCharge days) = Num.add (Num.of_Z 1) (bonusPoints tier)
      /\ points (calculateNewReleaseCharge days) = Num.of_Z 2).
Proof.
  intros Hn days tier.
  split; [apply charge_by_rule; [exact Hn|reflexivity]|].
  split; [reflexivity|].
  split.
  { intros Hb. unfold calculateNewReleaseCharge, days.
    cbn -[Num.add Num.mul Num.sub Num.gt Num.of_Z Z.mul Z.pow].
    rewrite NumFacts.mul_three by lia. f_equal. lia. }
  split; [reflexivity|].
  unfold calculateNewReleaseCharge, days.
  cbn -[Num.add Num.mul Num.sub Num.gt Num.of_Z Z.mul Z.pow].
  rewrite NumFacts.gt_of_Z. split.
  - intros Hle. destruct (Z.ltb_spec 2 n); [lia|reflexivity].
  - intros Hgt. destruct (Z.ltb_spec 2 n); [split; reflexivity|lia].
Qed.

Lemma new_release_charge_witness :
  amount (calculateNewReleaseCharge (Num.of_Z 4)) = Num.of_Z 12
  /\ points (calculateNewReleaseCharge (Num.of_Z 4)) = Num.of_Z 2.
Proof.
  pose proof (new_release_charge [] 4 ltac:(lia)) as (_ & _ & Ha & _ & _ & Hp).
  split.
  - apply Ha. lia.
  - apply Hp. lia.
Defined.

(** ** Validation and the unknown-code fallback *)

(** With valid days, a code that names no property of the calculator table,
    own or inherited, is tolerated: the zero charge and one console line. *)
Lemma fallback_on_unknown_code (m : Movie) (n : Z) :
  1 <= n -> get chargeCalculators (code m) = Undefined ->
  calculateRentalCharge (MovieObj m) (Num.of_Z n)
  = ([unknown_code_notice (code m)], Return (Charge fallback_charge)).
Proof.
  intros Hn Hrule. unfold calculateRentalCharge.
  rewrite NumFacts.valid_of_Z by exact Hn. cbn [movie_code string_of].
  rewrite Hrule. reflexivity.
Qed.

(** C4. Whatever the movie, days that are zero, negative or not an integer
    (NaN and the infinities included) make the pricing step throw the
    invalid-input error that carries the rejected value; nothing is logged
    and nothing is returned. *)
Theorem invalid_days_rejected (movie : movie_ref) (days : number) :
  Num.is_zero days = true \/ Num.lt days (Num.of_Z 0) = true \/ Num.is_integer days = false ->
  calculateRentalCharge movie days = ([], Throw (InvalidInput days)).
Proof.
  intros H. unfold calculateRentalCharge.
  rewrite (NumFacts.invalid_days days H). reflexivity.
Qed.

Lemma invalid_days_rejected_witness :
  calculateRentalCharge (MovieObj {| title := js "Ran"; code := js "horror" |}) (Num.of_Z 0)
    = ([], Throw (InvalidInput (Num.of_Z 0)))
  /\ calculateRentalCharge (MovieObj {| title := js "Ran"; code := js "regular" |}) (Num.of_Z (-1))
    = ([], Throw (InvalidInput (Num.of_Z (-1))))
  /\ calculateRentalCharge (MovieObj {| title := js "Ran"; code := js "new" |}) (Fin 3 (-1))
    = ([], Throw (InvalidInput (Fin 3 (-1)))).
Proof.
  split; [|split].
  - apply invalid_days_rejected. left. reflexivity.
  - apply invalid_days_rejected. right. left. reflexivity.
  - apply invalid_days_rejected. right. right. reflexivity.
Defined.

(** C9. The days are checked before the code is looked up: for a movie whose
    code has no pricing rule, invalid days throw the invalid-input error, with
    no console line and no fallback charge; whenever the pricing step returns
    at all, the days were a positive integer; and with a positive integer the
    fallback is what a code outside the inherited names gets. *)
Theorem validation_precedes_fallback (m : Movie) (days : number) :
  chargeCalculators !! code m = None ->
  (Num.is_zero days = true \/ Num.lt days (Num.of_Z 0) = true \/ Num.is_integer days = false ->
   calculateRentalCharge (MovieObj m) days = ([], Throw (InvalidInput days))
   /\ forall out, calculateRentalCharge (MovieObj m) days <> (out, Return (Charge fallback_charge)))
  /\ (forall out v,
        calculateRentalCharge (MovieObj m) days = (out, Return v) ->
        Num.is_integer days = true /\ Num.lt days (Num.of_Z 1) = false)
  /\ (code m ∉ object_prototype_names ->
      forall n, 1 <= n ->
        calculateRentalCharge (MovieObj m) (Num.of_Z n)
        = ([unknown_code_notice (code m)], Return (Charge fallback_charge))).
Proof.
  intros Hrule. split; [|split].
  - intros H. unfold calculateRentalCharge.
    rewrite (NumFacts.invalid_days days H).
    split; [reflexivity|]. intros out Heq. discriminate Heq.
  - intros out v. unfold calculateRentalCharge.
    destruct (Num.is_integer days); [|discriminate].
    destruct (Num.lt days (Num.of_Z 1)); [discriminate|]. intros _. split; reflexivity.
  - intros Hown n Hn. apply fallback_on_unknown_code; [exact Hn|].
    unfold get. rewrite Hrule. destruct (decide _); [contradiction|reflexivity].
Qed.

Lemma validation_precedes_fallback_witness :
  calculateRentalCharge (MovieObj {| title := js "Ran"; code := js "horror" |}) (Fin 5 (-1))
  = ([], Throw (InvalidInput (Fin 5 (-1)))).
Proof.
  apply (validation_precedes_fallback {| title := js "Ran"; code := js "horror" |} (Fin 5 (-1))).
  - reflexivity.
  - right. right. reflexivity.
Defined.

(** C5 fails on codes that name a member of [Object.prototype]: the table
    lookup finds the inherited member, so the guard for a missing calculator
    does not fire. No pricing rule matches ["constructor"] or ["__proto__"],
    yet with one day the first gives back a value that is no charge, without
    a console line, and the second throws. *)
Theorem unknown_code_inherited_member :
  chargeCalculators !! js "constructor" = None
  /\ calculateRentalCharge (MovieObj {| title := js "Ran"; code := js "constructor" |}) (Num.of_Z 1)
     = ([], Return Foreign)
  /\ chargeCalculators !! js "__proto__" = None
  /\ calculateRentalCharge (MovieObj {| title := js "Ran"; code := js "__proto__" |}) (Num.of_Z 1)
     = ([], Throw TypeError).
Proof. repeat split; reflexivity. Qed.

(** ** Line formatting *)

Lemma is_empty_false (s : jsstring) : s <> [] -> Str.is_empty s = false.
Proof. destruct s; [congruence|reflexivity]. Qed.

Lemma slice_27_length (label : jsstring) :
  30 < Str.len label -> length (Str.slice0 27 label ++ js "...") = 30%nat.
Proof.
  unfold Str.len, Str.slice0. intros H.
  rewrite length_app, firstn_length_le by lia. reflexivity.
Qed.

Lemma padEnd_length (n : Z) (s : jsstring) :
  Str.len s <= n -> Str.len (Str.padEnd n s) = n.
Proof.
  unfold Str.padEnd, Str.repeat1, Str.len. intros H.
  rewrite length_app, repeat_length. lia.
Qed.

(** The label column of a line that shows an amount is 30 code units wide. *)
Lemma label_column_width (label : jsstring) :
  let displayLabel :=
    if 30 <? Str.len label then Str.slice0 (30 - 3) label ++ js "..." else label in
  length (Str.padEnd 30 displayLabel) = 30%nat.
Proof.
  cbv zeta. destruct (Z.ltb_spec 30 (Str.len label)) as [Hlong|Hshort].
  - pose proof (slice_27_length label Hlong) as Hl.
    change (30 - 3) with 27.
    assert (Str.len (Str.padEnd 30 (Str.slice0 27 label ++ js "...")) = 30) as Hp
      by (apply padEnd_length; unfold Str.len; lia).
    unfold Str.len in Hp. lia.
  - pose proof (padEnd_length 30 label Hshort) as Hp. unfold Str.len in Hp. lia.
Qed.

(** C8. A non-blank label of more than 30 code units is cut to its first 27
    followed by ["..."], which fills the 30-unit column exactly; a non-blank
    label of at most 30 is kept whole, left-justified, and padded with spaces
    up to 30; the amount column follows at once. A blank label gives 38
    dashes, whatever the amount argument. *)
Theorem format_line_label_column (engine : number -> jsstring) (label : jsstring) :
  (Str.trim label <> [] -> 30 < Str.len label ->
   forall amount,
     formatStatementLine engine (Some label) (Some amount)
     = Return ((firstn 27 label ++ js "...") ++ Str.padStart 8 (toFixed2 engine amount))
     /\ length (firstn 27 label) = 27%nat
     /\ length (firstn 27 label ++ js "...") = 30%nat)
  /\ (Str.trim label <> [] -> Str.len label <= 30 ->
      forall amount,
        formatStatementLine engine (Some label) (Some amount)
        = Return ((label ++ repeat Str.space (30 - length label))
                    ++ Str.padStart 8 (toFixed2 engine amount))
        /\ length (label ++ repeat Str.space (30 - length label)) = 30%nat)
  /\ (Str.trim label = [] ->
      forall amount,
        formatStatementLine engine (Some label) amount = Return separator_line
        /\ length separator_line = 38%nat
        /\ Forall (fun c => c = Str.dash) separator_line).
Proof.
  split; [|split].
  - intros Hnb Hlong amount. unfold formatStatementLine.
    rewrite (is_empty_false _ Hnb).
    destruct (Z.ltb_spec 30 (Str.len label)); [|lia].
    pose proof (slice_27_length label Hlong) as Hl.
    change (30 - 3) with 27. unfold Str.padEnd, Str.len. rewrite Hl.
    unfold Str.slice0 in *. change (Z.to_nat 27) with 27%nat in *.
    change (Str.repeat1 Str.space (30 - Z.of_nat 30)) with (@nil N).
    rewrite app_nil_r. split; [reflexivity|]. split; [|exact Hl].
    rewrite length_app in Hl. cbn in Hl. lia.
  - intros Hnb Hshort amount. unfold formatStatementLine.
    rewrite (is_empty_false _ Hnb).
    destruct (Z.ltb_spec 30 (Str.len label)); [lia|].
    unfold Str.padEnd, Str.repeat1, Str.len in *.
    replace (Z.to_nat (30 - Z.of_nat (length label))) with (30 - length label)%nat by lia.
    split; [reflexivity|]. rewrite length_app, repeat_length. lia.
  - intros Hb amount. unfold formatStatementLine. rewrite Hb.
    split; [reflexivity|]. split; [reflexivity|].
    unfold separator_line. cbn [repeat]. repeat constructor.
Qed.

Lemma format_line_label_column_witness :
  formatStatementLine (fun _ => []) (Some (js "The Discreet Charm of the Bourgeoisie II")) (Some (Fin 7 (-1)))
    = Return (js "The Discreet Charm of the B...    3.50")
  /\ formatStatementLine (fun _ => []) (Some (js "Ran")) (Some (Num.of_Z 2))
    = Return (js "Ran                               2.00")
  /\ formatStatementLine (fun _ => []) (Some (js "   ")) None
    = Return (js "--------------------------------------").
Proof.
  pose proof (format_line_label_column (fun _ => [])
                (js "The Discreet Charm of the Bourgeoisie II")) as (Hlong & _ & _).
  pose proof (format_line_label_column (fun _ => []) (js "Ran")) as (_ & Hshort & _).
  pose proof (format_line_label_column (fun _ => []) (js "   ")) as (_ & _ & Hblank).
  split; [|split].
  - apply Hlong; [discriminate|reflexivity].
  - apply Hshort; [discriminate|discriminate].
  - apply Hblank. reflexivity.
Defined.

(** ** The loop over the rentals *)

Section Loop.
Context (movies : gmap jsstring Movie).

Lemma process_rentals_missing (r : Rental) (rest : list Rental) (acc : totals) :
  lookup_movie movies r = None ->
  process_rentals movies (r :: rest) acc = ([], Throw (MovieNotFound (movieID r))).
Proof.
  unfold lookup_movie. cbn [process_rentals].
  destruct (get movies (movieID r)); [discriminate|discriminate|]. reflexivity.
Qed.

Lemma process_rentals_throw (r : Rental) (rest : list Rental) (acc : totals) mv out e :
  lookup_movie movies r = Some mv ->
  calculateRentalCharge mv (days r) = (out, Throw e) ->
  process_rentals movies (r :: rest) acc = (out, Throw e).
Proof.
  unfold lookup_movie. cbn [process_rentals]. intros Hm Hc.
  destruct (get movies (movieID r)); try discriminate;
    injection Hm as <-; unfold mbind, mret, eff_bind, eff_ret; cbn;
    rewrite Hc; reflexivity.
Qed.

Lemma process_rentals_step (r : Rental) (rest : list Rental) (acc : totals) mv out v :
  lookup_movie movies r = Some mv ->
  calculateRentalCharge mv (days r) = (out, Return v) ->
  process_rentals movies (r :: rest) acc
  = (out ++ (process_rentals movies rest (accumulate acc (mv, v))).1,
     (process_rentals movies rest (accumulate acc (mv, v))).2).
Proof.
  unfold lookup_movie. cbn [process_rentals]. intros Hm Hc.
  destruct (get movies (movieID r)); try discriminate;
    injection Hm as <-; unfold mbind, mret, eff_bind, eff_ret; cbn;
    rewrite Hc; fold (accumulate acc); unfold accumulate; cbn;
    destruct (process_rentals movies rest _); reflexivity.
Qed.

(** A loop that completes has priced every rental, in order. *)
Lemma process_rentals_inv (rs : list Rental) (acc acc' : totals) out :
  process_rentals movies rs acc = (out, Return acc') ->
  exists mcs, Forall2 (priced movies) rs mcs /\ acc' = foldl accumulate acc mcs.
Proof.
  revert acc out. induction rs as [|r rest IH]; intros acc out H.
  - injection H as _ <-. exists []. split; [constructor|reflexivity].
  - destruct (lookup_movie movies r) as [mv|] eqn:Hm.
    2: { rewrite process_rentals_missing in H by exact Hm. discriminate. }
    destruct (calculateRentalCharge mv (days r)) as [o [v|e]] eqn:Hc.
    2: { rewrite (process_rentals_throw _ _ _ _ _ _ Hm Hc) in H. discriminate. }
    rewrite (process_rentals_step _ _ _ _ _ _ Hm Hc) in H.
    destruct (process_rentals movies rest (accumulate acc (mv, v))) as [o' res] eqn:Hrest.
    cbn in H. injection H as _ ->.
    destruct (IH _ _ Hrest) as (mcs & Hall & ->).
    exists ((mv, v) :: mcs). split; [|reflexivity].
    constructor; [|exact Hall]. split; [exact Hm|]. exists o. exact Hc.
Qed.

(** A rental whose ID resolves to nothing stops the loop, at the latest
    when its turn comes. *)
Lemma process_rentals_unresolved (rs : list Rental) (acc : totals) (r : Rental) :
  r ∈ rs -> lookup_movie movies r = None ->
  exists out e, process_rentals movies rs acc = (out, Throw e).
Proof.
  intros Hin Hr. revert acc. induction rs as [|r0 rest IH]; intros acc.
  - inversion Hin.
  - destruct (lookup_movie movies r0) as [mv|] eqn:Hm.
    2: { rewrite process_rentals_missing by exact Hm. eauto. }
    destruct (calculateRentalCharge mv (days r0)) as [o [v|e]] eqn:Hc.
    2: { rewrite (process_rentals_throw _ _ _ _ _ _ Hm Hc). eauto. }
    rewrite (process_rentals_step _ _ _ _ _ _ Hm Hc).
    assert (r ∈ rest) as Hrest.
    { apply elem_of_cons in Hin as [->|Hin]; [congruence|exact Hin]. }
    destruct (IH Hrest (accumulate acc (mv, v))) as (out & e & ->). cbn. eauto.
Qed.

(** The first rental that fails decides the error: after a run of rentals
    priced without error, an unresolved ID is reported as not found. *)
Lemma process_rentals_first_missing (pre post : list Rental) (r : Rental) (acc : totals) :
  Forall (fun r' => exists mc, priced movies r' mc) pre ->
  lookup_movie movies r = None ->
  exists out, process_rentals movies (pre ++ r :: post) acc
              = (out, Throw (MovieNotFound (movieID r))).
Proof.
  intros Hpre Hr. revert acc. induction Hpre as [|r0 pre Hr0 _ IH]; intros acc.
  - cbn [app]. rewrite process_rentals_missing by exact Hr. eauto.
  - destruct Hr0 as ([mv v] & Hm & o & Hc). cbn [fst snd] in Hm, Hc.
    cbn [app]. rewrite (process_rentals_step _ _ _ _ _ _ Hm Hc).
    destruct (IH (accumulate acc (mv, v))) as (out & ->). cbn. eauto.
Qed.

End Loop.

Lemma totalAmount_foldl (mcs : list (movie_ref * charge_value)) (acc : totals) :
  totalAmount (foldl accumulate acc mcs)
  = foldl (fun t mc => Num.add t (to_number (charge_amount mc.2))) (totalAmount acc) mcs.
Proof. revert acc. induction mcs as [|mc mcs IH]; intros acc; [reflexivity|apply IH]. Qed.

Lemma frequentRenterPoints_foldl (mcs : list (movie_ref * charge_value)) (acc : totals) :
  frequentRenterPoints (foldl accumulate acc mcs)
  = foldl (fun t mc => Num.add t (to_number (charge_points mc.2)))
      (frequentRenterPoints acc) mcs.
Proof. revert acc. induction mcs as [|mc mcs IH]; intros acc; [reflexivity|apply IH]. Qed.

Lemma rentalSummaries_foldl (mcs : list (movie_ref * charge_value)) (acc : totals) :
  rentalSummaries (foldl accumulate acc mcs)
  = rentalSummaries acc
      ++ map (fun mc => {| summary_title := movie_title mc.1;
                           summary_amount := charge_amount mc.2 |}) mcs.
Proof.
  revert acc. induction mcs as [|mc mcs IH]; intros acc; cbn [foldl map].
  - rewrite app_nil_r. reflexivity.
  - rewrite IH. cbn [accumulate rentalSummaries]. rewrite <- app_assoc. reflexivity.
Qed.

(** ** The shape of a statement *)

Section Shape.
Context (engine : number -> jsstring).

Local Abbreviation line_of :=
  (fun r => formatStatementLine engine (summary_title r) (summary_amount r)).

Lemma format_all_inv (ss : list RentalSummary) out body :
  mapM (fun r => lift (line_of r)) ss = (out, Return body) ->
  out = [] /\ Forall2 (fun r line => line_of r = Return line) ss body.
Proof.
  revert out body. induction ss as [|r ss IH]; intros out body H.
  - injection H as <- <-. split; [reflexivity|constructor].
  - cbn [mapM] in H. unfold mbind, mret, eff_bind, eff_ret, lift in H.
    destruct (line_of r) as [line|e] eqn:Hl; [|discriminate].
    destruct (mapM _ ss) as [o [ls|e]] eqn:Hrest; [|discriminate].
    injection H as <- <-.
    destruct (IH _ _ eq_refl) as [-> Hall].
    split; [reflexivity|]. constructor; [exact Hl|exact Hall].
Qed.

Lemma separator_formats (amount : option number) :
  formatStatementLine engine (Some []) amount = Return separator_line.
Proof. reflexivity. Qed.

(** A statement that is produced has priced every rental and consists of
    the header, a separator, one line per rental in order, a separator, the
    amount owed and the points earned. *)
Lemma statement_lines_inv (customer : Customer) (movies : gmap jsstring Movie) out lines :
  statement_lines engine customer movies = (out, Return lines) ->
  exists mcs body owed,
    Forall2 (priced movies) (rentals customer) mcs
    /\ Forall2 (fun mc line =>
                  formatStatementLine engine (movie_title mc.1) (charge_amount mc.2)
                  = Return line) mcs body
    /\ formatStatementLine engine (Some (js "Amount owed is"))
         (Some (totalAmount (foldl accumulate initial_totals mcs))) = Return owed
    /\ lines
       = [js "Rental Record for " ++ name customer; separator_line] ++ body
         ++ [separator_line; owed;
             js "Earned "
               ++ number_to_string engine
                    (frequentRenterPoints (foldl accumulate initial_totals mcs))
               ++ js " frequent renter points"].
Proof.
  unfold statement_lines. fold initial_totals. intros H.
  destruct (process_rentals movies (rentals customer) initial_totals)
    as [o [acc|e]] eqn:Hloop; [|discriminate].
  destruct (process_rentals_inv _ _ _ _ _ Hloop) as (mcs & Hpriced & ->).
  unfold mbind, mret, eff_bind, eff_ret in H.
  rewrite !separator_formats in H. unfold lift at 1 in H.
  destruct (mapM _ _) as [o' [body|e]] eqn:Hbody; [|discriminate].
  apply format_all_inv in Hbody as [-> Hbody].
  rewrite rentalSummaries_foldl in Hbody. cbn [initial_totals rentalSummaries app] in Hbody.
  apply Forall2_fmap_l in Hbody. cbn in Hbody.
  unfold lift in H.
  destruct (formatStatementLine engine (Some (js "Amount owed is")) _) as [owed|e] eqn:Howed;
    [|discriminate].
  injection H as _ <-.
  exists mcs, body, owed. repeat split; assumption.
Qed.

Lemma statement_of_lines (customer : Customer) (movies : gmap jsstring Movie) :
  statement engine customer movies
  = match statement_lines engine customer movies with
    | (out, Return lines) => (out, Return (Str.join lines ++ [Str.newline]))
    | (out, Throw e) => (out, Throw e)
    end.
Proof.
  unfold statement, mbind, mret, eff_bind, eff_ret.
  destruct (statement_lines engine customer movies) as [out [lines|e]]; [|reflexivity].
  rewrite app_nil_r. reflexivity.
Qed.

Lemma statement_lines_throw (customer : Customer) (movies : gmap jsstring Movie) out e :
  process_rentals movies (rentals customer) initial_totals = (out, Throw e) ->
  statement_lines engine customer movies = (out, Throw e).
Proof.
  unfold statement_lines. fold initial_totals. intros ->. reflexivity.
Qed.

End Shape.

(** ** The scenario of the specification *)

Lemma martin_totals :
  process_rentals scenario_catalog (rentals martin) initial_totals
  = ([], Return
           {| totalAmount := Fin 20 (-1);
              frequentRenterPoints := Num.of_Z 4;
              rentalSummaries :=
                [ {| summary_title := Some (js "Ran"); summary_amount := Some (Fin 7 (-1)) |};
                  {| summary_title := Some (js "Bleu"); summary_amount := Some (Num.of_Z 2) |};
                  {| summary_title := Some (js "Sommar"); summary_amount := Some (Fin 3 (-1)) |};
                  {| summary_title := Some (js "Yara"); summary_amount := Some (Num.of_Z 3) |} ] |}).
Proof. vm_compute. reflexivity. Qed.

Lemma martin_statement (engine : number -> jsstring) :
  statement engine martin scenario_catalog
  = ([], Return (Str.join
                   [ js "Rental Record for martin";
                     js "--------------------------------------";
                     js "Ran                               3.50";
                     js "Bleu                              2.00";
                     js "Sommar                            1.50";
                     js "Yara                              3.00";
                     js "--------------------------------------";
                     js "Amount owed is                   10.00";
                     js "Earned 4 frequent renter points" ] ++ [Str.newline])).
Proof. vm_compute. reflexivity. Qed.

(** C1 as stated fails: three days of a regular movie cost 3.50, not 2.00,
    so the statement of the scenario owes 10.00 and nowhere shows the text
    ["Amount owed is    8.50"]. *)
Lemma martin_statement_not_8_50 :
  ~ exists engine out text,
      statement engine martin scenario_catalog = (out, Return text)
      /\ Str.includes (js "Amount owed is    8.50") text = true.
Proof.
  intros (engine & out & text & H & Hinc).
  rewrite martin_statement in H. injection H as _ <-.
  vm_compute in Hinc. discriminate Hinc.
Qed.

(** C1, amended. In the scenario the per-rental amounts are 3.50, 2.00, 1.50
    and 3.00, the total is 10.00 and the points are 4; the text contains
    ["Rental Record for martin"], the total line with 10.00 right-aligned in
    the amount column, and ["Earned 4 frequent renter points"]. *)
Theorem martin_statement_10_00 (engine : number -> jsstring) :
  exists acc text,
    process_rentals scenario_catalog (rentals martin) initial_totals = ([], Return acc)
    /\ map (fun r => toFixed2 engine (to_number (summary_amount r))) (rentalSummaries acc)
       = [js "3.50"; js "2.00"; js "1.50"; js "3.00"]
    /\ toFixed2 engine (totalAmount acc) = js "10.00"
    /\ frequentRenterPoints acc = Num.of_Z 4
    /\ statement engine martin scenario_catalog = ([], Return text)
    /\ Str.includes (js "Rental Record for martin") text = true
    /\ Str.includes (js "Ran                               3.50") text = true
    /\ Str.includes (js "Amount owed is                   10.00") text = true
    /\ Str.includes (js "Earned 4 frequent renter points") text = true.
Proof.
  eexists _, _. split; [exact martin_totals|].
  split; [vm_compute; reflexivity|]. split; [vm_compute; reflexivity|].
  split; [reflexivity|]. split; [apply martin_statement|].
  repeat split; vm_compute; reflexivity.
Qed.

(** ** Missing movies *)

Lemma lookup_movie_None (movies : gmap jsstring Movie) (r : Rental) :
  get movies (movieID r) = Undefined <-> lookup_movie movies r = None.
Proof.
  unfold lookup_movie. destruct (get movies (movieID r)); split; congruence.
Qed.

Lemma zero_days_then_missing_statement (engine : number -> jsstring) :
  get scenario_catalog (js "F404") = Undefined
  /\ statement engine zero_days_then_missing scenario_catalog
     = ([], Throw (InvalidInput (Num.of_Z 0))).
Proof. split; vm_compute; reflexivity. Qed.

Lemma inherited_id_statement (engine : number -> jsstring) :
  scenario_catalog !! js "toString" = None
  /\ statement engine inherited_id_renter scenario_catalog
     = ([unknown_code_notice (js "undefined")], Throw TypeError).
Proof. split; vm_compute; reflexivity. Qed.

(** C6 as stated fails, in two ways. The rental of F404 has no catalog
    entry, but the rental before it has zero days, and that is the error the
    call reports: the first failure wins. And the catalog has no entry
    ["toString"], but [movies["toString"]] is the function every object
    inherits, so the guard for a missing movie does not fire and the call
    ends in a [TypeError]. *)
Lemma missing_movie_not_reported :
  (~ exists engine out,
       statement engine zero_days_then_missing scenario_catalog
       = (out, Throw (MovieNotFound (js "F404"))))
  /\ (scenario_catalog !! js "toString" = None
      /\ ~ exists engine out,
            statement engine inherited_id_renter scenario_catalog
            = (out, Throw (MovieNotFound (js "toString")))).
Proof.
  split; [|split].
  - intros (engine & out & H).
    destruct (zero_days_then_missing_statement engine) as [_ Hs].
    rewrite Hs in H. discriminate H.
  - reflexivity.
  - intros (engine & out & H).
    destruct (inherited_id_statement engine) as [_ Hs].
    rewrite Hs in H. discriminate H.
Qed.

(** A statement is produced only when every rental has an entry of its own
    in the catalog. *)
Lemma produced_has_entries
    (engine : number -> jsstring) (customer : Customer) (movies : gmap jsstring Movie)
    (out : list jsstring) (lines : list jsstring) (i : nat) (r : Rental) :
  statement_lines engine customer movies = (out, Return lines) ->
  rentals customer !! i = Some r ->
  is_Some (movies !! movieID r).
Proof.
  intros Hl Hi.
  destruct (statement_lines_inv engine _ _ _ _ Hl) as (mcs & body & owed & Hpriced & Hbody & _).
  destruct (Forall2_lookup_l _ _ _ _ _ Hpriced Hi) as ([mv v] & Hmc & Hm & _).
  destruct (Forall2_lookup_l _ _ _ _ _ Hbody Hmc) as (line & _ & Hfmt).
  cbn [fst snd] in Hm, Hfmt. unfold lookup_movie, get in Hm.
  destruct (movies !! movieID r) as [m|]; [eauto|]. exfalso.
  destruct (decide _); [|discriminate Hm].
  assert (mv = MovieInherited (movieID r)) as -> by congruence.
  discriminate Hfmt.
Qed.

(** C6, amended. A rental whose ID has no entry in the catalog makes the
    call fail, whatever the ID. The error is the not-found error naming that
    ID when every rental before it was priced without error and the ID is no
    name of a member of [Object.prototype]; which error a missing ID of such
    a name raises is left open. A call that does not fail had an entry for
    every rental and gives the whole text: header, separator, a line per
    rental, separator, amount owed and points earned, each followed by a
    newline. *)
Theorem missing_movie_aborts
    (engine : number -> jsstring) (customer : Customer) (movies : gmap jsstring Movie) :
  (forall r,
      r ∈ rentals customer -> movies !! movieID r = None ->
      exists out e, statement engine customer movies = (out, Throw e))
  /\ (forall pre r post,
        rentals customer = pre ++ r :: post ->
        Forall (fun r' => exists mc, priced movies r' mc) pre ->
        movies !! movieID r = None ->
        movieID r ∉ object_prototype_names ->
        exists out,
          statement engine customer movies = (out, Throw (MovieNotFound (movieID r))))
  /\ (forall out text,
        statement engine customer movies = (out, Return text) ->
        Forall (fun r => is_Some (movies !! movieID r)
                         /\ get movies (movieID r) <> Undefined) (rentals customer)
        /\ exists lines,
            statement_lines engine customer movies = (out, Return lines)
            /\ length lines = (length (rentals customer) + 5)%nat
            /\ text = Str.join lines ++ [Str.newline]).
Proof.
  split; [|split].
  - intros r Hin Hnone. rewrite statement_of_lines.
    destruct (statement_lines engine customer movies) as [o [lines|e]] eqn:Hl; [|eauto].
    exfalso. apply list_elem_of_lookup in Hin as [i Hi].
    destruct (produced_has_entries engine _ _ _ _ _ _ Hl Hi) as [m Hm].
    congruence.
  - intros pre r post Hrs Hpre Hnone Hname.
    assert (lookup_movie movies r = None) as Hr.
    { unfold lookup_movie, get. rewrite Hnone.
      destruct (decide _); [contradiction|reflexivity]. }
    destruct (process_rentals_first_missing movies pre post r initial_totals Hpre Hr)
      as (out & H).
    exists out. rewrite statement_of_lines.
    rewrite <- Hrs in H. rewrite (statement_lines_throw engine _ _ _ _ H). reflexivity.
  - intros out text H. rewrite statement_of_lines in H.
    destruct (statement_lines engine customer movies) as [o [lines|e]] eqn:Hl; [|discriminate].
    assert (o = out) as -> by congruence.
    assert (text = Str.join lines ++ [Str.newline]) as -> by congruence.
    clear H. split.
    + apply Forall_lookup. intros i r Hi.
      destruct (produced_has_entries engine _ _ _ _ _ _ Hl Hi) as [m Hm].
      split; [eauto|]. unfold get. rewrite Hm. discriminate.
    + destruct (statement_lines_inv engine _ _ _ _ Hl)
        as (mcs & body & owed & Hpriced & Hbody & _ & Hlines).
      exists lines. split; [reflexivity|]. split; [|reflexivity].
      rewrite Hlines. apply Forall2_length in Hpriced, Hbody.
      cbn [app length]. rewrite length_app. cbn [length]. lia.
Qed.

Lemma missing_movie_aborts_witness :
  exists out,
    statement no_exponent_notation
      {| name := js "martin";
         rentals := [ {| movieID := js "F001"; days := Num.of_Z 1 |};
                      {| movieID := js "F404"; days := Num.of_Z 1 |} ] |}
      scenario_catalog
    = (out, Throw (MovieNotFound (js "F404"))).
Proof.
  apply (missing_movie_aborts no_exponent_notation _ scenario_catalog)
    with (pre := [ {| movieID := js "F001"; days := Num.of_Z 1 |} ])
         (r := {| movieID := js "F404"; days := Num.of_Z 1 |}) (post := []).
  - reflexivity.
  - constructor; [|constructor].
    exists (MovieObj {| title := js "Ran"; code := js "regular" |},
            Charge (calculateRegularCharge (Num.of_Z 1))).
    split; [vm_compute; reflexivity|]. exists []. vm_compute. reflexivity.
  - vm_compute. reflexivity.
  - intros H. vm_compute in H.
    repeat (apply elem_of_cons in H as [H|H]; [discriminate H|]).
    inversion H.
Defined.

(** ** Blank titles *)

Lemma owed_line (engine : number -> jsstring) (total : number) :
  formatStatementLine engine (Some (js "Amount owed is")) (Some total)
  = Return (js "Amount owed is                " ++ Str.padStart 8 (toFixed2 engine total)).
Proof. reflexivity. Qed.

Lemma lookup_after_two {A} (a b : A) (l : list A) (i : nat) :
  ([a; b] ++ l) !! (2 + i)%nat = l !! i.
Proof. reflexivity. Qed.

Lemma sum_amounts_total (mcs : list (movie_ref * charge_value)) :
  totalAmount (foldl accumulate initial_totals mcs) = sum_amounts mcs.
Proof. apply totalAmount_foldl. Qed.

Lemma sum_points_total (mcs : list (movie_ref * charge_value)) :
  frequentRenterPoints (foldl accumulate initial_totals mcs) = sum_points mcs.
Proof. apply frequentRenterPoints_foldl. Qed.

(** C10. In a statement that is produced, the line of a rental whose movie
    has an empty or all-whitespace title is the 38-dash separator, whatever
    its amount, while the amount owed and the points earned are the sums over
    the charges of all the rentals, that one included. *)
Theorem blank_title_line
    (engine : number -> jsstring) (customer : Customer) (movies : gmap jsstring Movie)
    (out : list jsstring) (lines : list jsstring) :
  statement_lines engine customer movies = (out, Return lines) ->
  exists mcs,
    Forall2 (priced movies) (rentals customer) mcs
    /\ (forall i r m,
          rentals customer !! i = Some r -> movies !! movieID r = Some m ->
          Str.trim (title m) = [] ->
          lines !! (2 + i)%nat = Some separator_line
          /\ (exists v, mcs !! i = Some (MovieObj m, v))
          /\ forall amount,
               formatStatementLine engine (Some (title m)) amount = Return separator_line)
    /\ lines !! (length (rentals customer) + 3)%nat
       = Some (js "Amount owed is                "
                 ++ Str.padStart 8 (toFixed2 engine (sum_amounts mcs)))
    /\ lines !! (length (rentals customer) + 4)%nat
       = Some (js "Earned " ++ number_to_string engine (sum_points mcs)
                 ++ js " frequent renter points").
Proof.
  intros H.
  destruct (statement_lines_inv engine _ _ _ _ H)
    as (mcs & body & owed & Hpriced & Hbody & Howed & ->).
  rewrite owed_line in Howed. injection Howed as <-.
  rewrite sum_amounts_total, sum_points_total.
  pose proof (Forall2_length _ _ _ Hpriced) as Hlen1.
  pose proof (Forall2_length _ _ _ Hbody) as Hlen2.
  exists mcs. split; [exact Hpriced|]. split; [|split].
  - intros i r m Hi Hm Hblank.
    assert (forall amount,
               formatStatementLine engine (Some (title m)) amount = Return separator_line)
      as Hsep.
    { intros amount. unfold formatStatementLine. rewrite Hblank. reflexivity. }
    destruct (Forall2_lookup_l _ _ _ _ _ Hpriced Hi) as ([mv v] & Hmc & Hlook & _).
    cbn [fst] in Hlook. unfold lookup_movie, get in Hlook. rewrite Hm in Hlook.
    injection Hlook as <-.
    destruct (Forall2_lookup_l _ _ _ _ _ Hbody Hmc) as (line & Hline & Hfmt).
    cbn [fst snd movie_title] in Hfmt. rewrite Hsep in Hfmt. injection Hfmt as <-.
    split; [|split; [eauto|exact Hsep]].
    rewrite lookup_after_two.
    rewrite lookup_app_l by (apply lookup_lt_Some in Hline; exact Hline).
    exact Hline.
  - replace (length (rentals customer) + 3)%nat with (2 + (length body + 1))%nat by lia.
    rewrite lookup_after_two, lookup_app_r by lia.
    replace (length body + 1 - length body)%nat with 1%nat by lia. reflexivity.
  - replace (length (rentals customer) + 4)%nat with (2 + (length body + 2))%nat by lia.
    rewrite lookup_after_two, lookup_app_r by lia.
    replace (length body + 2 - length body)%nat with 2%nat by lia. reflexivity.
Qed.

Lemma blank_title_line_witness :
  exists mcs,
    mcs !! 0%nat = Some (MovieObj {| title := js "  "; code := js "regular" |},
                          Charge (calculateRegularCharge (Num.of_Z 1)))
    /\ [ js "Rental Record for martin"; separator_line; separator_line; separator_line;
         js "Amount owed is                    2.00";
         js "Earned 1 frequent renter points" ] !! 4%nat
       = Some (js "Amount owed is                "
                 ++ Str.padStart 8 (toFixed2 no_exponent_notation (sum_amounts mcs))).
Proof.
  destruct (blank_title_line no_exponent_notation untitled_renter untitled_catalog []
              [ js "Rental Record for martin"; separator_line; separator_line; separator_line;
                js "Amount owed is                    2.00";
                js "Earned 1 frequent renter points" ])
    as (mcs & Hpriced & Hblank & Howed & _).
  - vm_compute. reflexivity.
  - exists mcs. split; [|exact Howed].
    destruct (Hblank 0%nat {| movieID := js "F001"; days := Num.of_Z 1 |}
                {| title := js "  "; code := js "regular" |})
      as (_ & (v & Hv) & _); [reflexivity|vm_compute; reflexivity|reflexivity|].
    rewrite Hv. f_equal. f_equal.
    inversion Hpriced as [|r mc rs mcs' [Hm (o & Hc)] Hrest]; subst.
    cbn in Hv. injection Hv as ->. cbn [fst snd] in Hc.
    vm_compute in Hc. injection Hc as _ <-. reflexivity.
Defined.

(** ** Reading displayed amounts back *)

Lemma trimStart_spaces (k : nat) (s : jsstring) :
  Str.trimStart (repeat Str.space k ++ s) = Str.trimStart s.
Proof. induction k as [|k IH]; [reflexivity|exact IH]. Qed.

Lemma trimStart_digits (u : uint) (rest : jsstring) :
  Str.trimStart (Str.uint_codes u ++ Str.dot :: rest) = Str.uint_codes u ++ Str.dot :: rest.
Proof. destruct u; reflexivity. Qed.

Lemma read_uint_codes (u : uint) (rest : jsstring) :
  read_uint (Str.uint_codes u ++ Str.dot :: rest) = (u, Str.dot :: rest).
Proof.
  induction u as [|u IH|u IH|u IH|u IH|u IH|u IH|u IH|u IH|u IH|u IH];
    [reflexivity|..];
    cbn [Str.uint_codes app read_uint];
    match goal with |- context [digit_value ?c] => change (digit_value c) with (Some (Z.of_N c - 48)) end;
    rewrite IH; reflexivity.
Qed.

Lemma digit_value_digit (d : Z) : 0 <= d <= 9 -> digit_value (Str.digit d) = Some d.
Proof.
  intros Hd. unfold digit_value, Str.digit.
  destruct (N.leb_spec 48 (Z.to_N (48 + d))); [|lia].
  destruct (N.leb_spec (Z.to_N (48 + d)) 57); [|lia].
  cbn [andb]. f_equal. lia.
Qed.

Lemma decimal_value (a : Z) : 0 <= a -> Z.of_N (N.of_uint (N.to_uint (Z.to_N a))) = a.
Proof. intros Ha. rewrite DecimalN.Unsigned.of_to. lia. Qed.

(** A count of hundredths, written with two decimals and padded on the left,
    reads back as itself. *)
Lemma read_fixed2_padded (n : Z) :
  0 <= n ->
  read_fixed2
    (Str.trimStart
       (Str.padStart 8
          (Str.decimal (n / 100)
             ++ Str.dot :: Str.digit (n mod 100 / 10) :: Str.digit (n mod 10) :: [])))
  = Some n.
Proof.
  intros Hn. unfold Str.padStart, Str.repeat1, Str.decimal.
  rewrite trimStart_spaces, trimStart_digits. unfold read_fixed2.
  rewrite read_uint_codes.
  rewrite !digit_value_digit by lia.
  rewrite N.eqb_refl, decimal_value by lia.
  f_equal. lia.
Qed.

(** An amount counted in halves displays fifty hundredths for each half. *)
Lemma toFixed2_halves (engine : number -> jsstring) (x : number) (h : Z) :
  Num.halves x = Some h -> 0 <= h < 2 ^ 53 ->
  read_fixed2 (Str.trimStart (Str.padStart 8 (toFixed2 engine x))) = Some (50 * h).
Proof.
  intros Hx Hh. rewrite <- (read_fixed2_padded (50 * h)) by lia.
  destruct x as [| |m [|[]|[]]]; try discriminate; cbn in Hx; injection Hx as <-.
  - unfold toFixed2, below_1e21, Num.lt, Num.align. eval_exponents.
    destruct (Z.ltb_spec (Z.abs m * 1) (10 ^ 21 * 1)); [|lia].
    destruct (Z.ltb_spec m 0); [lia|].
    unfold hundredths. cbn [Z.leb Z.compare]. change (2 ^ 0) with 1.
    replace (100 * Z.abs m * 1) with (50 * (2 * m)) by lia. reflexivity.
  - unfold toFixed2, below_1e21, Num.lt, Num.align. eval_exponents.
    destruct (Z.ltb_spec (Z.abs m * 1) (10 ^ 21 * 2)); [|lia].
    destruct (Z.ltb_spec m 0); [lia|].
    unfold hundredths. cbn [Z.leb Z.compare].
    change (2 ^ (- -1)) with 2. change (2 ^ (1 - -1)) with 4.
    replace ((200 * Z.abs m + 2) / 4) with (50 * m) by lia. reflexivity.
Qed.

(** ** Amounts of priced rentals *)

Lemma calculators_own (k : jsstring) (f : number -> RentalCharge) :
  chargeCalculators !! k = Some f ->
  f = calculateRegularCharge \/ f = calculateChildrenCharge \/ f = calculateNewReleaseCharge.
Proof.
  unfold chargeCalculators. intros H.
  apply lookup_insert_Some in H as [[_ <-]|[_ H]]; [auto|].
  apply lookup_insert_Some in H as [[_ <-]|[_ H]]; [auto|].
  apply lookup_singleton_Some in H as [_ <-]. auto.
Qed.

(** A charge computed for a whole number of days up to [2^50] is a
    non-negative number of halves, at most seven per day. *)
Lemma charge_halves (m : Movie) (n : Z) out (c : RentalCharge) :
  calculateRentalCharge (MovieObj m) (Num.of_Z n) = (out, Return (Charge c)) ->
  n <= 2 ^ 50 ->
  1 <= n /\ exists h, Num.halves (amount c) = Some h /\ 0 <= h <= 7 * n.
Proof.
  unfold calculateRentalCharge. rewrite NumFacts.lt_of_Z.
  cbn [Num.is_integer Num.of_Z Z.leb Z.compare orb negb movie_code string_of].
  destruct (Z.ltb_spec n 1) as [|Hn]; [discriminate|]. intros H Hb.
  split; [exact Hn|].
  unfold get in H. destruct (chargeCalculators !! code m) as [f|] eqn:Hf.
  - injection H as _ <-.
    destruct (calculators_own _ _ Hf) as [-> | [-> | ->]].
    + fold (Num.of_Z n). rewrite regular_amount_exact by lia.
      eexists. split; [reflexivity|]. destruct (Z.leb_spec n 2); lia.
    + fold (Num.of_Z n). rewrite children_amount_exact by lia.
      eexists. split; [reflexivity|]. destruct (Z.leb_spec n 3); lia.
    + fold (Num.of_Z n). rewrite new_release_amount_exact by lia.
      eexists. split; [reflexivity|]. lia.
  - destruct (decide (code m ∈ object_prototype_names)).
    + unfold call_inherited in H. case_decide; discriminate.
    + injection H as _ <-. exists 0. split; [reflexivity|lia].
Qed.

(** Adding up amounts counted in halves is exact below [2^53] halves. *)
Lemma sum_halves (mcs : list (movie_ref * charge_value)) (hs : list Z) (t : number) (a : Z) :
  Forall2 (fun mc h => Num.halves (to_number (charge_amount mc.2)) = Some h /\ 0 <= h) mcs hs ->
  Num.halves t = Some a -> 0 <= a -> a + sum_list hs < 2 ^ 53 ->
  Num.halves (foldl (fun t mc => Num.add t (to_number (charge_amount mc.2))) t mcs)
  = Some (a + sum_list hs).
Proof.
  intros Hall. revert t a. induction Hall as [|mc h mcs hs [Hh Hpos] Hall IH]; intros t a Ht Ha Hb.
  - cbn. rewrite Ht. f_equal. lia.
  - cbn [foldl]. cbn [sum_list foldr] in Hb |- *. fold (sum_list hs) in Hb |- *.
    assert (0 <= sum_list hs) as Hs.
    { clear -Hall. induction Hall as [|? ? ? ? [_ ?] _ IH']; cbn; [lia|].
      fold (sum_list l'). lia. }
    rewrite (IH _ (a + h)); [f_equal; lia| |lia|lia].
    apply NumFacts.add_halves; [exact Ht|exact Hh|lia|lia|lia].
Qed.

(** ** The displayed total *)

Section Total.
Context (engine : number -> jsstring) (movies : gmap jsstring Movie).

(** The line of a rental with a non-blank title and a whole number of days
    up to [2^50] displays the charge, fifty hundredths for each half. *)
Lemma rental_line_amount (r : Rental) (mc : movie_ref * charge_value) (line : jsstring) (n : Z) :
  priced movies r mc ->
  formatStatementLine engine (movie_title mc.1) (charge_amount mc.2) = Return line ->
  (forall m, movies !! movieID r = Some m -> Str.trim (title m) <> []) ->
  days_count r = Some n -> n <= 2 ^ 50 ->
  exists h,
    Num.halves (to_number (charge_amount mc.2)) = Some h
    /\ 0 <= h <= 7 * n
    /\ displayed_amount line = Some (50 * h).
Proof.
  destruct mc as [mv v]. intros [Hm (o & Hc)] Hfmt Htitle Hdays Hn.
  cbn [fst snd] in *.
  unfold lookup_movie, get in Hm.
  destruct (movies !! movieID r) as [m|] eqn:Hlook.
  2: { destruct (decide _); [|discriminate]. injection Hm as <-. discriminate Hfmt. }
  injection Hm as <-. specialize (Htitle m eq_refl).
  cbn [movie_title] in Hfmt. unfold formatStatementLine in Hfmt.
  rewrite (is_empty_false _ Htitle) in Hfmt.
  destruct v as [c|]; [|discriminate Hfmt]. cbn [charge_amount to_number] in *.
  injection Hfmt as <-.
  unfold days_count in Hdays. destruct (days r) as [| |n' [| |]]; try discriminate.
  injection Hdays as ->.
  destruct (charge_halves m n o c Hc Hn) as (Hpos & h & Hh & Hb).
  exists h. split; [exact Hh|]. split; [exact Hb|].
  unfold displayed_amount.
  rewrite drop_app_length' by (symmetry; apply label_column_width).
  apply toFixed2_halves; [exact Hh|lia].
Qed.

Lemma priced_days_valid (r : Rental) (mc : movie_ref * charge_value) (n : Z) :
  priced movies r mc -> days_count r = Some n -> 1 <= n.
Proof.
  intros [_ (o & Hc)] Hdays. unfold days_count in Hdays.
  destruct (days r) as [| |n' [| |]]; try discriminate. injection Hdays as ->.
  unfold calculateRentalCharge in Hc. fold (Num.of_Z n) in Hc.
  rewrite NumFacts.lt_of_Z in Hc. cbn [Num.is_integer Num.of_Z Z.leb Z.compare orb negb] in Hc.
  destruct (Z.ltb_spec n 1); [discriminate|lia].
Qed.

Lemma rental_lines_amounts (rs : list Rental) (mcs : list (movie_ref * charge_value))
    (body : list jsstring) (ns : list Z) :
  Forall2 (priced movies) rs mcs ->
  Forall2 (fun mc line =>
             formatStatementLine engine (movie_title mc.1) (charge_amount mc.2) = Return line)
    mcs body ->
  (forall r m, r ∈ rs -> movies !! movieID r = Some m -> Str.trim (title m) <> []) ->
  map days_count rs = map Some ns -> sum_list ns <= 2 ^ 50 ->
  exists hs,
    Forall2 (fun mc h => Num.halves (to_number (charge_amount mc.2)) = Some h /\ 0 <= h) mcs hs
    /\ Forall2 (fun line h => displayed_amount line = Some (50 * h)) body hs
    /\ 0 <= sum_list ns
    /\ sum_list hs <= 7 * sum_list ns.
Proof.
  intros Hpriced. revert body ns.
  induction Hpriced as [|r mc rs mcs Hr Hpriced IH]; intros body ns Hbody Htitles Hdays Hsum.
  - inversion Hbody; subst. destruct ns; [|discriminate].
    exists []. repeat split; try constructor; cbn; lia.
  - inversion Hbody as [|? line ? body' Hline Hbody']; subst.
    destruct ns as [|n ns]; [discriminate|]. cbn [map] in Hdays.
    injection Hdays as Hn Hdays. cbn [sum_list foldr] in Hsum |- *. fold (sum_list ns) in Hsum |- *.
    pose proof (priced_days_valid r mc n Hr Hn) as Hpos.
    assert (0 <= sum_list ns) as Hns.
    { clear -Hpriced Hdays. revert ns Hdays.
      induction Hpriced as [|r' mc' rs' mcs' Hr' _ IH']; intros [|n' ns'] Hd;
        try discriminate Hd; cbn [sum_list foldr]; [lia|].
      injection Hd as Hn' Hd. fold (sum_list ns').
      pose proof (priced_days_valid r' mc' n' Hr' Hn'). specialize (IH' _ Hd). lia. }
    destruct (IH body' ns Hbody') as (hs & Hhs & Hdisp & _ & Hle); [|exact Hdays|lia|].
    { intros r' m Hin. apply Htitles. apply elem_of_cons. right. exact Hin. }
    destruct (rental_line_amount r mc line n Hr Hline) as (h & Hh & Hb & Hd); [|exact Hn|lia|].
    { intros m. apply Htitles. apply elem_of_cons. left. reflexivity. }
    exists (h :: hs). split; [constructor; [split; [exact Hh|lia]|exact Hhs]|].
    split; [constructor; [exact Hd|exact Hdisp]|].
    cbn [sum_list foldr]. fold (sum_list hs). lia.
Qed.

End Total.

Lemma rental_lines_shape (a b : jsstring) (body tail : list jsstring) :
  rental_lines (length body) ([a; b] ++ body ++ tail) = body.
Proof. unfold rental_lines. cbn [app drop]. apply take_app_length. Qed.

Lemma displayed_total_shape (a b c owed e : jsstring) (body : list jsstring) :
  displayed_total (length body) ([a; b] ++ body ++ [c; owed; e]) = displayed_amount owed.
Proof.
  unfold displayed_total.
  replace (length body + 3)%nat with (2 + (length body + 1))%nat by lia.
  rewrite lookup_after_two, lookup_app_r by lia.
  replace (length body + 1 - length body)%nat with 1%nat by lia. reflexivity.
Qed.

Lemma owed_displayed (amount : jsstring) :
  displayed_amount (js "Amount owed is                " ++ amount)
  = read_fixed2 (Str.trimStart amount).
Proof. reflexivity. Qed.

Lemma untitled_statement_lines (engine : number -> jsstring) :
  statement_lines engine untitled_renter untitled_catalog
  = ([], Return [ js "Rental Record for martin";
                  separator_line;
                  separator_line;
                  separator_line;
                  js "Amount owed is                    2.00";
                  js "Earned 1 frequent renter points" ]).
Proof. vm_compute. reflexivity. Qed.

(** C7 as stated fails: a rental of a movie with a blank title is charged
    2.00, which the total line shows, while its own line is a separator and
    shows no amount. *)
Lemma untitled_total_differs :
  ~ exists engine out lines,
      statement_lines engine untitled_renter untitled_catalog = (out, Return lines)
      /\ displayed_total (length (rentals untitled_renter)) lines
         = Some (displayed_sum (rental_lines (length (rentals untitled_renter)) lines)).
Proof.
  intros (engine & out & lines & H & Hsum).
  rewrite untitled_statement_lines in H. injection H as _ <-.
  vm_compute in Hsum. discriminate Hsum.
Qed.

Lemma long_renter_statement_lines (engine : number -> jsstring) :
  statement_lines engine long_renter scenario_catalog
  = ([], Return [ js "Rental Record for martin";
                  separator_line;
                  js "Sommar                            1.50";
                  js "Yara                          13510798882111488.00";
                  separator_line;
                  js "Amount owed is                13510798882111490.00";
                  js "Earned 3 frequent renter points" ]).
Proof. vm_compute. reflexivity. Qed.

(** Without a bound on the days the sum is rounded: [2^52] days of a new
    release and one day of a children movie owe 13510798882111489.50, and the
    total line shows 13510798882111490.00. *)
Lemma long_renter_total_differs :
  ~ exists engine out lines,
      statement_lines engine long_renter scenario_catalog = (out, Return lines)
      /\ displayed_total (length (rentals long_renter)) lines
         = Some (displayed_sum (rental_lines (length (rentals long_renter)) lines)).
Proof.
  intros (engine & out & lines & H & Hsum).
  rewrite long_renter_statement_lines in H. injection H as _ <-.
  vm_compute in Hsum. discriminate Hsum.
Qed.

(** C7, amended. When the statement is produced, every rented movie has a
    non-blank title, and the days are whole numbers that add up to at most
    [2^50], each rental line of the output displays an amount and the amount
    on the total line is the sum of the amounts on the rental lines, each read
    back from its line at two decimals. *)
Theorem displayed_total_is_sum
    (engine : number -> jsstring) (customer : Customer) (movies : gmap jsstring Movie)
    (out : list jsstring) (lines : list jsstring) (ns : list Z) :
  statement_lines engine customer movies = (out, Return lines) ->
  (forall r m,
      r ∈ rentals customer -> movies !! movieID r = Some m -> Str.trim (title m) <> []) ->
  map days_count (rentals customer) = map Some ns ->
  sum_list ns <= 2 ^ 50 ->
  let n := length (rentals customer) in
  Forall (fun line => is_Some (displayed_amount line)) (rental_lines n lines)
  /\ displayed_total n lines = Some (displayed_sum (rental_lines n lines)).
Proof.
  intros H Htitles Hdays Hsum n.
  destruct (statement_lines_inv engine _ _ _ _ H)
    as (mcs & body & owed & Hpriced & Hbody & Howed & ->).
  rewrite owed_line in Howed.
  assert (owed = js "Amount owed is                "
                   ++ Str.padStart 8
                        (toFixed2 engine (totalAmount (foldl accumulate initial_totals mcs))))
    as -> by congruence.
  clear Howed.
  destruct (rental_lines_amounts engine movies _ _ _ _ Hpriced Hbody Htitles Hdays Hsum)
    as (hs & Hhs & Hdisp & Hns & Hle).
  pose proof (Forall2_length _ _ _ Hpriced) as Hlen1.
  pose proof (Forall2_length _ _ _ Hbody) as Hlen2.
  subst n. rewrite Hlen1, Hlen2, rental_lines_shape.
  split.
  - clear -Hdisp. induction Hdisp as [|line h body hs Hd _ IH]; constructor; [|exact IH].
    rewrite Hd. eexists. reflexivity.
  - rewrite displayed_total_shape, owed_displayed.
    rewrite sum_amounts_total. unfold sum_amounts.
    pose proof (sum_halves mcs hs (Num.of_Z 0) 0 Hhs eq_refl ltac:(lia) ltac:(lia)) as Htotal.
    cbn [Z.add] in Htotal.
    assert (0 <= sum_list hs) as Hpos.
    { clear -Hhs. induction Hhs as [|? ? ? ? [_ ?] _ IH]; cbn [sum_list foldr]; [lia|].
      fold (sum_list l'). lia. }
    rewrite (toFixed2_halves engine _ _ Htotal) by lia.
    f_equal. unfold displayed_sum.
    clear -Hdisp. induction Hdisp as [|line h body hs Hd _ IH]; [reflexivity|].
    cbn [omap list_omap]. rewrite Hd. cbn [sum_list foldr].
    fold (sum_list hs). fold (sum_list (omap displayed_amount body)).
    unfold sum_list in IH |- *. lia.
Qed.

Lemma displayed_total_is_sum_witness :
  displayed_total 4
    [ js "Rental Record for martin";
      js "--------------------------------------";
      js "Ran                               3.50";
      js "Bleu                              2.00";
      js "Sommar                            1.50";
      js "Yara                              3.00";
      js "--------------------------------------";
      js "Amount owed is                   10.00";
      js "Earned 4 frequent renter points" ]
  = Some (350 + (200 + (150 + (300 + 0)))).
Proof.
  refine (proj2 (displayed_total_is_sum no_exponent_notation martin scenario_catalog [] _
                   [3; 1; 1; 1] _ _ _ _)).
  - vm_compute. reflexivity.
  - intros r m Hin Hm.
    repeat (apply elem_of_cons in Hin as [->|Hin]; [vm_compute in Hm; injection Hm as <-; discriminate|]).
    inversion Hin.
  - reflexivity.
  - vm_compute. discriminate.
Defined.

(** * Further properties of the code *)

(** ** Statements that are always produced *)

(** With valid days and a code that is no inherited name, the pricing step
    returns: the rule's charge in silence, or the zero charge with a notice. *)
Lemma price_well_formed (m : Movie) (d : number) :
  valid_days d -> code m ∉ object_prototype_names ->
  calculateRentalCharge (MovieObj m) d
  = match chargeCalculators !! code m with
    | Some calculator => ([], Return (Charge (calculator d)))
    | None => ([unknown_code_notice (code m)], Return (Charge fallback_charge))
    end.
Proof.
  intros [Hint Hlt] Hcode. unfold calculateRentalCharge. rewrite Hint, Hlt.
  cbn [negb orb movie_code string_of]. unfold get.
  destruct (chargeCalculators !! code m); [reflexivity|].
  destruct (decide _); [contradiction|reflexivity].
Qed.

Lemma process_rentals_well_formed
    (movies : gmap jsstring Movie) (rs : list Rental) (acc : totals) :
  Forall (well_formed movies) rs ->
  exists mcs,
    Forall2 (charge_of movies) rs mcs
    /\ process_rentals movies rs acc
       = (expected_notices movies rs, Return (foldl accumulate acc mcs)).
Proof.
  intros Hwf. revert acc. induction Hwf as [|r rs (m & Hm & Hcode & Hdays) _ IH]; intros acc.
  - exists []. split; [constructor|reflexivity].
  - pose proof (price_well_formed m (days r) Hdays Hcode) as Hprice.
    assert (lookup_movie movies r = Some (MovieObj m)) as Hlook
      by (unfold lookup_movie, get; rewrite Hm; reflexivity).
    set (c := match chargeCalculators !! code m with
              | Some calculator => calculator (days r)
              | None => fallback_charge
              end).
    assert (calculateRentalCharge (MovieObj m) (days r)
            = (rental_notice movies r, Return (Charge c))) as Hc.
    { rewrite Hprice. unfold rental_notice, c. rewrite Hm.
      destruct (chargeCalculators !! code m); reflexivity. }
    destruct (IH (accumulate acc (MovieObj m, Charge c))) as (mcs & Hall & Hrest).
    exists ((MovieObj m, Charge c) :: mcs). split.
    + constructor; [|exact Hall]. exists m. split; [exact Hm|reflexivity].
    + rewrite (process_rentals_step _ _ _ _ _ _ _ Hlook Hc), Hrest. reflexivity.
Qed.

Lemma format_defined (engine : number -> jsstring) (label : jsstring) (amount : number) :
  exists line, formatStatementLine engine (Some label) (Some amount) = Return line.
Proof.
  unfold formatStatementLine. destruct (Str.is_empty (Str.trim label)); eauto.
Qed.

Lemma format_all_defined (engine : number -> jsstring) (mcs : list (movie_ref * charge_value)) :
  Forall (fun mc => exists m c, mc = (MovieObj m, Charge c)) mcs ->
  exists body,
    length body = length mcs
    /\ mapM (fun r => lift (formatStatementLine engine (summary_title r) (summary_amount r)))
         (map (fun mc => {| summary_title := movie_title mc.1;
                            summary_amount := charge_amount mc.2 |}) mcs)
       = ([], Return body).
Proof.
  induction 1 as [|mc mcs (m & c & ->) _ (body & Hlen & IH)].
  - exists []. split; reflexivity.
  - destruct (format_defined engine (title m) (amount c)) as (line & Hline).
    exists (line :: body). split; [cbn; lia|].
    cbn [map mapM fst snd movie_title charge_amount summary_title summary_amount].
    rewrite Hline, IH. reflexivity.
Qed.

Lemma charge_of_shape (movies : gmap jsstring Movie) (rs : list Rental)
    (mcs : list (movie_ref * charge_value)) :
  Forall2 (charge_of movies) rs mcs ->
  Forall (fun mc => exists m c, mc = (MovieObj m, Charge c)) mcs.
Proof.
  induction 1 as [|r mc rs mcs (m & _ & ->) _ IH]; constructor; eauto.
Qed.

(** The lines of the statement of well-formed rentals. *)
Lemma statement_lines_well_formed
    (engine : number -> jsstring) (customer : Customer) (movies : gmap jsstring Movie) :
  Forall (well_formed movies) (rentals customer) ->
  exists mcs body,
    Forall2 (charge_of movies) (rentals customer) mcs
    /\ length body = length (rentals customer)
    /\ statement_lines engine customer movies
       = (expected_notices movies (rentals customer),
          Return ([js "Rental Record for " ++ name customer; separator_line] ++ body
                    ++ [separator_line;
                        js "Amount owed is                "
                          ++ Str.padStart 8 (toFixed2 engine (sum_amounts mcs));
                        js "Earned " ++ number_to_string engine (sum_points mcs)
                          ++ js " frequent renter points"])).
Proof.
  intros Hwf.
  destruct (process_rentals_well_formed movies _ initial_totals Hwf) as (mcs & Hall & Hloop).
  destruct (format_all_defined engine mcs (charge_of_shape _ _ _ Hall)) as (body & Hlen & Hbody).
  exists mcs, body. split; [exact Hall|].
  split; [apply Forall2_length in Hall; lia|].
  unfold statement_lines. fold initial_totals. rewrite Hloop.
  unfold mbind, mret, eff_bind, eff_ret.
  rewrite !separator_formats. unfold lift at 1.
  rewrite rentalSummaries_foldl. cbn [initial_totals rentalSummaries app].
  unfold mbind, mret, eff_bind, eff_ret in Hbody.
  rewrite Hbody. unfold lift. rewrite owed_line.
  rewrite sum_amounts_total, sum_points_total, !app_nil_r. reflexivity.
Qed.

(** X1. A customer without rentals always gets a statement, whatever the
    name and the catalog: the header, two separators, an amount owed of 0.00
    and 0 points, and nothing on the console. *)
Theorem no_rentals_statement
    (engine : number -> jsstring) (who : jsstring) (movies : gmap jsstring Movie) :
  statement engine {| name := who; rentals := [] |} movies
  = ([], Return (Str.join [ js "Rental Record for " ++ who;
                            js "--------------------------------------";
                            js "--------------------------------------";
                            js "Amount owed is                    0.00";
                            js "Earned 0 frequent renter points" ] ++ [Str.newline])).
Proof. reflexivity. Qed.

(** X2. When every rental names a catalog entry whose code is no name
    inherited from [Object.prototype] and has a positive integer of days, the
    statement is produced, and the console shows exactly one notice for each
    rental whose code has no calculator, in the order of the rentals. *)
Theorem well_formed_statement_succeeds
    (engine : number -> jsstring) (customer : Customer) (movies : gmap jsstring Movie) :
  Forall (well_formed movies) (rentals customer) ->
  exists text,
    statement engine customer movies
    = (expected_notices movies (rentals customer), Return text).
Proof.
  intros Hwf.
  destruct (statement_lines_well_formed engine customer movies Hwf)
    as (mcs & body & _ & _ & Hlines).
  rewrite statement_of_lines, Hlines. eauto.
Qed.

(** Decide that a closed string is none of a closed list of strings. *)
Ltac not_listed :=
  let H := fresh in
  intros H; vm_compute in H;
  repeat (apply elem_of_cons in H as [H|H]; [discriminate H|]);
  inversion H.

Lemma horror_renter_well_formed : Forall (well_formed horror_catalog) (rentals horror_renter).
Proof.
  repeat constructor.
  - exists {| title := js "Ran"; code := js "regular" |}.
    split; [reflexivity|]. split; [not_listed|]. split; reflexivity.
  - exists {| title := js "Ringu"; code := js "horror" |}.
    split; [reflexivity|]. split; [not_listed|]. split; reflexivity.
  - exists {| title := js "Ran"; code := js "regular" |}.
    split; [reflexivity|]. split; [not_listed|]. split; reflexivity.
Defined.

Lemma well_formed_statement_succeeds_witness :
  exists text,
    statement no_exponent_notation horror_renter horror_catalog
    = ([unknown_code_notice (js "horror")], Return text).
Proof.
  exact (well_formed_statement_succeeds no_exponent_notation horror_renter horror_catalog
           horror_renter_well_formed).
Defined.

(** ** The first failure *)

Lemma process_rentals_first_throw
    (movies : gmap jsstring Movie) (pre post : list Rental) (r : Rental) (acc : totals)
    mv o e :
  Forall (fun r' => exists mc, priced movies r' mc) pre ->
  lookup_movie movies r = Some mv ->
  calculateRentalCharge mv (days r) = (o, Throw e) ->
  exists out, process_rentals movies (pre ++ r :: post) acc = (out, Throw e).
Proof.
  intros Hpre Hm Hc. revert acc. induction Hpre as [|r0 pre Hr0 _ IH]; intros acc.
  - cbn [app]. rewrite (process_rentals_throw _ _ _ _ _ _ _ Hm Hc). eauto.
  - destruct Hr0 as ([mv0 v0] & Hm0 & o0 & Hc0). cbn [fst snd] in Hm0, Hc0.
    cbn [app]. rewrite (process_rentals_step _ _ _ _ _ _ _ Hm0 Hc0).
    destruct (IH (accumulate acc (mv0, v0))) as (out & ->). cbn. eauto.
Qed.

(** X3. A rental with invalid days whose ID is found in the catalog makes
    the whole statement fail with the invalid-input error that carries those
    days, provided every rental before it is priced without error. *)
Theorem invalid_days_abort
    (engine : number -> jsstring) (customer : Customer) (movies : gmap jsstring Movie)
    (pre post : list Rental) (r : Rental) :
  rentals customer = pre ++ r :: post ->
  Forall (fun r' => exists mc, priced movies r' mc) pre ->
  get movies (movieID r) <> Undefined ->
  Num.is_zero (days r) = true \/ Num.lt (days r) (Num.of_Z 0) = true
    \/ Num.is_integer (days r) = false ->
  exists out, statement engine customer movies = (out, Throw (InvalidInput (days r))).
Proof.
  intros Hrs Hpre Hfound Hdays.
  destruct (lookup_movie movies r) as [mv|] eqn:Hm.
  2: { apply lookup_movie_None in Hm. contradiction. }
  assert (calculateRentalCharge mv (days r) = ([], Throw (InvalidInput (days r)))) as Hc.
  { unfold calculateRentalCharge. rewrite (NumFacts.invalid_days _ Hdays). reflexivity. }
  destruct (process_rentals_first_throw movies pre post r initial_totals _ _ _ Hpre Hm Hc)
    as (out & H).
  exists out. rewrite statement_of_lines. rewrite <- Hrs in H.
  rewrite (statement_lines_throw engine _ _ _ _ H). reflexivity.
Qed.

Lemma invalid_days_abort_witness :
  exists out,
    statement no_exponent_notation
      {| name := js "martin";
         rentals := [ {| movieID := js "F013"; days := Num.of_Z 2 |};
                      {| movieID := js "F001"; days := Fin 5 (-1) |};
                      {| movieID := js "F404"; days := Num.of_Z 1 |} ] |}
      horror_catalog
    = (out, Throw (InvalidInput (Fin 5 (-1)))).
Proof.
  apply (invalid_days_abort no_exponent_notation _ horror_catalog
           [ {| movieID := js "F013"; days := Num.of_Z 2 |} ]
           [ {| movieID := js "F404"; days := Num.of_Z 1 |} ]
           {| movieID := js "F001"; days := Fin 5 (-1) |}).
  - reflexivity.
  - constructor; [|constructor].
    exists (MovieObj {| title := js "Ringu"; code := js "horror" |}, Charge fallback_charge).
    split; [vm_compute; reflexivity|]. eexists. vm_compute. reflexivity.
  - vm_compute. discriminate.
  - right. right. reflexivity.
Defined.

(** ** The catalog beyond the rented movies *)

Lemma process_rentals_agree
    (movies movies' : gmap jsstring Movie) (rs : list Rental) (acc : totals) :
  (forall r, r ∈ rs -> movies !! movieID r = movies' !! movieID r) ->
  process_rentals movies rs acc = process_rentals movies' rs acc.
Proof.
  revert acc. induction rs as [|r rs IH]; intros acc Hagree; [reflexivity|].
  cbn [process_rentals]. unfold get.
  rewrite <- (Hagree r) by (apply elem_of_cons; left; reflexivity).
  assert (forall acc', process_rentals movies rs acc' = process_rentals movies' rs acc') as Hrest.
  { intros acc'. apply IH. intros r' Hin. apply Hagree. apply elem_of_cons. right. exact Hin. }
  unfold mbind, mret, eff_bind, eff_ret, throw.
  destruct (movies !! movieID r) as [m|]; [|destruct (decide _)]; try reflexivity;
    match goal with
    | |- context [calculateRentalCharge ?mv ?d] =>
        destruct (calculateRentalCharge mv d) as [o [v|err]]
    end; try reflexivity; rewrite Hrest; reflexivity.
Qed.

(** X4. The statement looks at the catalog only under the IDs of the
    rentals: two catalogs that agree on those give the same statement, the
    same console output and the same error. *)
Theorem statement_ignores_other_movies
    (engine : number -> jsstring) (customer : Customer) (movies movies' : gmap jsstring Movie) :
  (forall r, r ∈ rentals customer -> movies !! movieID r = movies' !! movieID r) ->
  statement engine customer movies = statement engine customer movies'.
Proof.
  intros Hagree. unfold statement, statement_lines.
  rewrite (process_rentals_agree movies movies' _ _ Hagree). reflexivity.
Qed.

Lemma statement_ignores_other_movies_witness :
  statement no_exponent_notation martin scenario_catalog
  = statement no_exponent_notation martin
      (<[ js "F013" := {| title := js "Ringu"; code := js "horror" |} ]> scenario_catalog).
Proof.
  apply statement_ignores_other_movies. intros r Hin.
  repeat (apply elem_of_cons in Hin as [->|Hin]; [vm_compute; reflexivity|]).
  inversion Hin.
Defined.

(** ** Points *)

Lemma calculators_keyed (k : jsstring) (f : number -> RentalCharge) :
  chargeCalculators !! k = Some f ->
  (k = js "regular" /\ f = calculateRegularCharge)
  \/ (k = js "children" /\ f = calculateChildrenCharge)
  \/ (k = js "new" /\ f = calculateNewReleaseCharge).
Proof.
  unfold chargeCalculators. intros H.
  apply lookup_insert_Some in H as [[<- <-]|[_ H]]; [auto|].
  apply lookup_insert_Some in H as [[<- <-]|[_ H]]; [auto|].
  apply lookup_singleton_Some in H as [<- <-]. auto.
Qed.

Lemma charge_of_points (movies : gmap jsstring Movie) (r : Rental) (mc : movie_ref * charge_value) :
  charge_of movies r mc ->
  to_number (charge_points mc.2) = Num.of_Z (rental_points movies r).
Proof.
  intros (m & Hm & ->). cbn [snd charge_points to_number].
  unfold rental_points, earns_bonus. rewrite Hm.
  destruct (chargeCalculators !! code m) as [f|] eqn:Hf.
  - destruct (calculators_keyed _ _ Hf) as [[Hk ->] | [[Hk ->] | [Hk ->]]]; rewrite Hk.
    + reflexivity.
    + reflexivity.
    + rewrite bool_decide_eq_true_2 by reflexivity. cbn [andb].
      unfold calculateNewReleaseCharge.
      cbn [PRICING_TIERS.new rate new_thresholdDays bonusPoints points].
      destruct (Num.gt (days r) (Num.of_Z 2)); reflexivity.
  - rewrite bool_decide_eq_false_2; [reflexivity|].
    intros Hk. rewrite Hk in Hf. discriminate Hf.
Qed.

Lemma add_of_Z (a b : Z) :
  Z.abs (a + b) < 2 ^ 53 -> Num.add (Num.of_Z a) (Num.of_Z b) = Num.of_Z (a + b).
Proof.
  intros H. unfold Num.add, Num.of_Z. cbn [Z.min]. rewrite !NumFacts.align_same.
  rewrite NumFacts.round64_small by lia.
  destruct (Z.eqb_spec (a + b) 0) as [->|]; reflexivity.
Qed.

Lemma rental_points_bounds (movies : gmap jsstring Movie) (rs : list Rental) :
  Z.of_nat (length rs) <= sum_list (map (rental_points movies) rs) <= 2 * Z.of_nat (length rs).
Proof.
  induction rs as [|r rs IH]; [cbn; lia|].
  cbn [map sum_list foldr length]. fold (sum_list (map (rental_points movies) rs)).
  unfold rental_points at 1 3. destruct (earns_bonus movies r); lia.
Qed.

Lemma sum_points_exact (movies : gmap jsstring Movie) (rs : list Rental)
    (mcs : list (movie_ref * charge_value)) (a : Z) :
  Forall2 (charge_of movies) rs mcs ->
  0 <= a -> a + 2 * Z.of_nat (length rs) < 2 ^ 53 ->
  foldl (fun t mc => Num.add t (to_number (charge_points mc.2))) (Num.of_Z a) mcs
  = Num.of_Z (a + sum_list (map (rental_points movies) rs)).
Proof.
  intros Hall. revert a. induction Hall as [|r mc rs mcs Hr _ IH]; intros a Ha Hb.
  - cbn. f_equal. lia.
  - cbn [foldl map sum_list foldr length] in *.
    fold (sum_list (map (rental_points movies) rs)).
    pose proof (rental_points_bounds movies rs) as Hrest.
    assert (1 <= rental_points movies r <= 2) as Hp
      by (unfold rental_points; destruct (earns_bonus movies r); lia).
    rewrite (charge_of_points _ _ _ Hr), add_of_Z by lia.
    rewrite IH by lia. f_equal. lia.
Qed.

Lemma safe_integer_string (engine : number -> jsstring) (k : Z) :
  0 <= k < 2 ^ 53 -> number_to_string engine (Num.of_Z k) = Str.decimal k.
Proof.
  intros Hk. unfold number_to_string, Num.of_Z, is_safe_integer, Num.is_integer, Num.lt.
  cbn [Z.leb Z.compare orb andb Z.min]. rewrite !NumFacts.align_same.
  destruct (Z.ltb_spec (Z.abs k) (2 ^ 53)); [|lia].
  destruct (Z.ltb_spec k 0); [lia|].
  unfold Num.trunc. cbn [Z.leb Z.compare app]. change (2 ^ 0) with 1.
  f_equal. lia.
Qed.

(** X5. For well-formed rentals the last line of the statement shows, in
    decimal digits, one point for each rental and a second one for each new
    release kept for more than two days; a rental of an unknown code or of a
    movie with a blank title earns its point too. The count lies between the
    number of rentals and twice that number. *)
Theorem points_earned
    (engine : number -> jsstring) (customer : Customer) (movies : gmap jsstring Movie) :
  Forall (well_formed movies) (rentals customer) ->
  2 * Z.of_nat (length (rentals customer)) < 2 ^ 53 ->
  let earned := sum_list (map (rental_points movies) (rentals customer)) in
  Z.of_nat (length (rentals customer)) <= earned <= 2 * Z.of_nat (length (rentals customer))
  /\ exists out lines,
      statement_lines engine customer movies = (out, Return lines)
      /\ lines !! (length (rentals customer) + 4)%nat
         = Some (js "Earned " ++ Str.decimal earned ++ js " frequent renter points").
Proof.
  intros Hwf Hlen earned. split; [apply rental_points_bounds|].
  destruct (statement_lines_well_formed engine customer movies Hwf)
    as (mcs & body & Hall & Hbody & Hlines).
  eexists _, _. split; [exact Hlines|].
  replace (length (rentals customer) + 4)%nat with (2 + (length body + 2))%nat by lia.
  rewrite lookup_after_two, lookup_app_r by lia.
  replace (length body + 2 - length body)%nat with 2%nat by lia.
  cbn [lookup list_lookup]. unfold sum_points.
  rewrite (sum_points_exact movies _ _ 0 Hall) by lia.
  pose proof (rental_points_bounds movies (rentals customer)) as Hb.
  rewrite safe_integer_string by (cbn [Z.add]; fold earned; lia).
  reflexivity.
Qed.

Lemma points_earned_witness :
  exists out lines,
    statement_lines no_exponent_notation horror_renter horror_catalog = (out, Return lines)
    /\ lines !! 7%nat = Some (js "Earned 3 frequent renter points").
Proof.
  refine (proj2 (points_earned no_exponent_notation horror_renter horror_catalog
                   horror_renter_well_formed _)).
  vm_compute. reflexivity.
Defined.

(** ** Prices *)

(** X6. Up to [2^50] days a longer rental never costs less, under each of
    the three rules; the amounts are compared in halves. *)
Theorem longer_rental_costs_no_less (n m : Z) :
  1 <= n -> n <= m -> m <= 2 ^ 50 ->
  forall calculator,
    calculator = calculateRegularCharge \/ calculator = calculateChildrenCharge
      \/ calculator = calculateNewReleaseCharge ->
    exists a b,
      Num.halves (amount (calculator (Num.of_Z n))) = Some a
      /\ Num.halves (amount (calculator (Num.of_Z m))) = Some b
      /\ 0 < a <= b.
Proof.
  intros Hn Hnm Hm calculator [-> | [-> | ->]].
  - rewrite !regular_amount_exact by lia. eexists _, _. split; [reflexivity|].
    split; [reflexivity|]. destruct (Z.leb_spec n 2), (Z.leb_spec m 2); lia.
  - rewrite !children_amount_exact by lia. eexists _, _. split; [reflexivity|].
    split; [reflexivity|]. destruct (Z.leb_spec n 3), (Z.leb_spec m 3); lia.
  - rewrite !new_release_amount_exact by lia. eexists _, _. split; [reflexivity|].
    split; [reflexivity|]. lia.
Qed.

Lemma longer_rental_costs_no_less_witness :
  exists a b,
    Num.halves (amount (calculateChildrenCharge (Num.of_Z 3))) = Some a
    /\ Num.halves (amount (calculateChildrenCharge (Num.of_Z 7))) = Some b
    /\ 0 < a <= b.
Proof.
  apply (longer_rental_costs_no_less 3 7); [lia|lia|lia|].
  right. left. reflexivity.
Defined.

(** X7. For the same number of days, up to [2^50], a children movie costs
    at most what a regular movie costs, which costs less than a new release;
    the three amounts are a whole number of halves, and the new release a
    whole number. *)
Theorem tiers_are_ordered (n : Z) :
  1 <= n -> n <= 2 ^ 50 ->
  exists c r w,
    Num.halves (amount (calculateChildrenCharge (Num.of_Z n))) = Some c
    /\ Num.halves (amount (calculateRegularCharge (Num.of_Z n))) = Some r
    /\ amount (calculateNewReleaseCharge (Num.of_Z n)) = Num.of_Z w
    /\ c <= r < 2 * w.
Proof.
  intros Hn Hb. rewrite children_amount_exact, regular_amount_exact by lia.
  exists (if n <=? 3 then 3 else 3 + 3 * (n - 3)),
         (if n <=? 2 then 4 else 4 + 3 * (n - 2)), (3 * n).
  split; [reflexivity|]. split; [reflexivity|]. split.
  - unfold calculateNewReleaseCharge. cbn -[Num.mul Num.of_Z Z.mul].
    apply NumFacts.mul_three; lia.
  - destruct (Z.leb_spec n 3), (Z.leb_spec n 2); lia.
Qed.

Lemma tiers_are_ordered_witness :
  exists c r w,
    Num.halves (amount (calculateChildrenCharge (Num.of_Z 5))) = Some c
    /\ Num.halves (amount (calculateRegularCharge (Num.of_Z 5))) = Some r
    /\ amount (calculateNewReleaseCharge (Num.of_Z 5)) = Num.of_Z w
    /\ c <= r < 2 * w.
Proof. apply (tiers_are_ordered 5); lia. Defined.

(** ** The layout of a line *)

(** X8. A line with a non-blank label is the 30-unit label column, then
    spaces that fill the amount up to 8 units when it is shorter, then the
    amount in full: the amount is never cut, and no line is narrower than 38
    units. *)
Theorem amount_line_layout
    (engine : number -> jsstring) (label : jsstring) (amount : number) (line : jsstring) :
  Str.trim label <> [] ->
  formatStatementLine engine (Some label) (Some amount) = Return line ->
  exists column,
    line = column
             ++ repeat Str.space (8 - length (toFixed2 engine amount))
             ++ toFixed2 engine amount
    /\ length column = 30%nat
    /\ (length line = 30 + Nat.max 8 (length (toFixed2 engine amount)))%nat.
Proof.
  intros Hnb H. unfold formatStatementLine in H. rewrite (is_empty_false _ Hnb) in H.
  pose proof (label_column_width label) as Hw. cbv zeta in Hw.
  injection H as <-. eexists. split; [|split; [exact Hw|]].
  - unfold Str.padStart, Str.repeat1, Str.len.
    replace (Z.to_nat (8 - Z.of_nat (length (toFixed2 engine amount))))
      with (8 - length (toFixed2 engine amount))%nat by lia.
    reflexivity.
  - rewrite length_app, Hw. unfold Str.padStart, Str.repeat1, Str.len.
    rewrite length_app, repeat_length. lia.
Qed.

Lemma amount_line_layout_witness :
  exists column,
    js "Ran                           123456789.50"
    = column ++ repeat Str.space (8 - length (toFixed2 no_exponent_notation (Fin 246913579 (-1))))
        ++ toFixed2 no_exponent_notation (Fin 246913579 (-1))
    /\ length column = 30%nat
    /\ (length (js "Ran                           123456789.50")
        = 30 + Nat.max 8 (length (toFixed2 no_exponent_notation (Fin 246913579 (-1)))))%nat.
Proof.
  apply (amount_line_layout no_exponent_notation (js "Ran")).
  - discriminate.
  - vm_compute. reflexivity.
Defined.

(** ** Separators *)

Lemma trimStart_nil (s : jsstring) : Str.trimStart s = [] <-> all_whitespace s = true.
Proof.
  unfold all_whitespace. induction s as [|c s IH]; [split; reflexivity|].
  cbn [Str.trimStart forallb]. destruct (Str.is_whitespace c).
  - exact IH.
  - split; discriminate.
Qed.

Lemma trimStart_head (s : jsstring) (c : N) (t : jsstring) :
  Str.trimStart s = c :: t -> Str.is_whitespace c = false.
Proof.
  induction s as [|c' s IH]; [discriminate|].
  cbn [Str.trimStart]. destruct (Str.is_whitespace c') eqn:Hc; [exact IH|].
  intros H. injection H as <- _. exact Hc.
Qed.

(** A label passes for blank exactly when all its code units are white space. *)
Lemma trim_blank (s : jsstring) : Str.trim s = [] <-> all_whitespace s = true.
Proof.
  split.
  - unfold Str.trim, Str.trimEnd. intros H.
    destruct (Str.trimStart s) as [|c t] eqn:Ht; [apply trimStart_nil; exact Ht|].
    exfalso. pose proof (trimStart_head _ _ _ Ht) as Hc.
    assert (Str.trimStart (rev (c :: t)) = []) as Hrev.
    { destruct (Str.trimStart (rev (c :: t))); [reflexivity|].
      cbn [rev] in H. apply app_eq_nil in H as [_ H]. discriminate H. }
    apply trimStart_nil in Hrev. unfold all_whitespace in Hrev.
    rewrite forallb_forall in Hrev.
    rewrite (Hrev c) in Hc; [discriminate|]. apply in_rev. rewrite rev_involutive. left. reflexivity.
  - intros H. apply trimStart_nil in H. unfold Str.trim. rewrite H. reflexivity.
Qed.

Lemma separator_all_dashes (l : jsstring) (c : N) :
  l ++ [c] = separator_line -> c = Str.dash.
Proof.
  intros H.
  assert (Forall (fun c => c = Str.dash) (l ++ [c])) as Hall.
  { rewrite H. unfold separator_line. cbn [repeat]. repeat constructor. }
  apply Forall_app in Hall as [_ Hc]. inversion Hc; assumption.
Qed.

(** X9. For an amount below [10^21], a line is the separator exactly when
    every code unit of the label is white space (the empty label included):
    a line that shows an amount is never mistaken for a separator, and a
    label of white space never shows its amount. *)
Theorem separator_iff_blank
    (engine : number -> jsstring) (label : jsstring) (amount : number) :
  below_1e21 amount = true ->
  formatStatementLine engine (Some label) (Some amount) = Return separator_line
  <-> all_whitespace label = true.
Proof.
  intros Hb. split.
  - intros H. apply trim_blank.
    destruct (Str.trim label) as [|c t] eqn:Ht; [reflexivity|]. exfalso.
    unfold formatStatementLine in H. rewrite Ht in H. cbn [Str.is_empty] in H.
    injection H as H.
    destruct amount as [| |m e]; try discriminate Hb.
    unfold toFixed2 in H. rewrite Hb in H.
    unfold Str.padStart in H. rewrite !app_assoc in H.
    change (?a :: ?b :: ?c :: []) with ([a; b] ++ [c]) in H.
    rewrite !app_assoc in H. apply separator_all_dashes in H.
    assert (0 <= hundredths (Z.abs m) e mod 10 <= 9) as Hd by lia.
    revert H Hd. generalize (hundredths (Z.abs m) e mod 10). clear.
    intros d H Hd. unfold Str.digit, Str.dash in H. lia.
  - intros H%trim_blank. unfold formatStatementLine. rewrite H. reflexivity.
Qed.

Lemma separator_iff_blank_witness :
  formatStatementLine no_exponent_notation (Some [9%N; 32%N; 160%N]) (Some (Fin 7 (-1)))
  = Return separator_line.
Proof.
  apply (separator_iff_blank no_exponent_notation [9%N; 32%N; 160%N] (Fin 7 (-1))).
  - reflexivity.
  - reflexivity.
Defined.

(** ** The text as a whole *)

Lemma join_cons (l : jsstring) (ls : list jsstring) :
  ls <> [] -> Str.join (l :: ls) = l ++ Str.newline :: Str.join ls.
Proof. destruct ls; [congruence|reflexivity]. Qed.

Lemma join_last_app (ls : list jsstring) (y z : jsstring) :
  Str.join (ls ++ [y ++ z]) = Str.join (ls ++ [y]) ++ z.
Proof.
  induction ls as [|l ls IH]; [reflexivity|].
  cbn [app]. rewrite !join_cons by (destruct ls; discriminate).
  rewrite IH, <- app_assoc. reflexivity.
Qed.

(** X10. Every statement that is produced starts with the header line that
    names the customer and a separator line, and ends with the words of the
    points line and a newline. *)
Theorem statement_text_frame
    (engine : number -> jsstring) (customer : Customer) (movies : gmap jsstring Movie)
    (out : list jsstring) (text : jsstring) :
  statement engine customer movies = (out, Return text) ->
  exists middle,
    text = (js "Rental Record for " ++ name customer) ++ Str.newline
             :: separator_line ++ Str.newline
             :: middle ++ js " frequent renter points" ++ [Str.newline].
Proof.
  intros H. rewrite statement_of_lines in H.
  destruct (statement_lines engine customer movies) as [o [lines|e]] eqn:Hl; [|discriminate].
  assert (text = Str.join lines ++ [Str.newline]) as -> by congruence. clear H.
  destruct (statement_lines_inv engine _ _ _ _ Hl) as (mcs & body & owed & _ & _ & _ & ->).
  cbn [app]. rewrite !join_cons by (destruct body; discriminate).
  change (separator_line :: owed :: ?e :: []) with ([separator_line; owed] ++ [e]).
  rewrite (app_assoc (js "Earned ")), (app_assoc body), join_last_app.
  exists (Str.join
            ((body ++ [separator_line; owed])
               ++ [js "Earned "
                     ++ number_to_string engine
                          (frequentRenterPoints (foldl accumulate initial_totals mcs))])).
  repeat (rewrite <- app_assoc; cbn [app]). reflexivity.
Qed.

Lemma statement_text_frame_witness :
  exists middle,
    Str.join [ js "Rental Record for martin"; separator_line; separator_line;
               js "Amount owed is                    0.00";
               js "Earned 0 frequent renter points" ] ++ [Str.newline]
    = (js "Rental Record for " ++ js "martin") ++ Str.newline
        :: separator_line ++ Str.newline
        :: middle ++ js " frequent renter points" ++ [Str.newline].
Proof.
  apply (statement_text_frame no_exponent_notation {| name := js "martin"; rentals := [] |}
           scenario_catalog []).
  reflexivity.
Defined.

(** ** Lines and rentals *)

(** X11. In a statement that is produced the lines of the rentals keep the
    order of the rentals: the line after the first separator and [i] more
    lines is the line of rental [i], made of the title of its catalog entry
    and of the amount the pricing step returned for its days. *)
Theorem lines_follow_rentals
    (engine : number -> jsstring) (customer : Customer) (movies : gmap jsstring Movie)
    (out : list jsstring) (lines : list jsstring) (i : nat) (r : Rental) (m : Movie) :
  statement_lines engine customer movies = (out, Return lines) ->
  rentals customer !! i = Some r ->
  movies !! movieID r = Some m ->
  exists o v line,
    calculateRentalCharge (MovieObj m) (days r) = (o, Return v)
    /\ formatStatementLine engine (Some (title m)) (charge_amount v) = Return line
    /\ lines !! (2 + i)%nat = Some line.
Proof.
  intros H Hi Hm.
  destruct (statement_lines_inv engine _ _ _ _ H)
    as (mcs & body & owed & Hpriced & Hbody & _ & ->).
  destruct (Forall2_lookup_l _ _ _ _ _ Hpriced Hi) as ([mv v] & Hmc & Hlook & o & Hc).
  cbn [fst snd] in Hlook, Hc. unfold lookup_movie, get in Hlook. rewrite Hm in Hlook.
  assert (mv = MovieObj m) as -> by congruence.
  destruct (Forall2_lookup_l _ _ _ _ _ Hbody Hmc) as (line & Hline & Hfmt).
  cbn [fst snd movie_title] in Hfmt.
  exists o, v, line. split; [exact Hc|]. split; [exact Hfmt|].
  rewrite lookup_after_two.
  rewrite lookup_app_l by (apply lookup_lt_Some in Hline; exact Hline).
  exact Hline.
Qed.

Lemma lines_follow_rentals_witness :
  exists o v line,
    calculateRentalCharge (MovieObj {| title := js "Sommar"; code := js "children" |}) (Num.of_Z 1)
    = (o, Return v)
    /\ formatStatementLine no_exponent_notation (Some (js "Sommar")) (charge_amount v)
       = Return line
    /\ [ js "Rental Record for martin";
         js "--------------------------------------";
         js "Ran                               3.50";
         js "Bleu                              2.00";
         js "Sommar                            1.50";
         js "Yara                              3.00";
         js "--------------------------------------";
         js "Amount owed is                   10.00";
         js "Earned 4 frequent renter points" ] !! 4%nat = Some line.
Proof.
  apply (lines_follow_rentals no_exponent_notation martin scenario_catalog [] _ 2%nat
           {| movieID := js "F003"; days := Num.of_Z 1 |}).
  - vm_compute. reflexivity.
  - reflexivity.
  - vm_compute. reflexivity.
Defined.

(** ** Amounts read back *)

Lemma Return_inj {A} (a b : A) : Return a = Return b -> a = b.
Proof. congruence. Qed.

Lemma hundredths_nonneg (m e : Z) : 0 <= m -> 0 <= hundredths m e.
Proof.
  intros Hm. unfold hundredths. destruct (Z.leb_spec 0 e).
  - assert (0 <= 2 ^ e) by (apply Z.pow_nonneg; lia). nia.
  - assert (0 < 2 ^ (- e)) by (apply Z.pow_pos_nonneg; lia).
    assert (0 < 2 ^ (1 - e)) by (apply Z.pow_pos_nonneg; lia).
    apply Z.div_pos; lia.
Qed.

(** X12. The amount of a line can always be read back from behind the
    label column, whatever the title holds: for a non-blank label and a
    non-negative amount [m * 2^e] below [10^21] it is the count of
    hundredths nearest to the amount, exact when the amount is a whole
    number and otherwise within half a hundredth of it. *)
Theorem line_amount_round_trip
    (engine : number -> jsstring) (label : jsstring) (m e : Z) (line : jsstring) :
  Str.trim label <> [] -> 0 <= m -> below_1e21 (Fin m e) = true ->
  formatStatementLine engine (Some label) (Some (Fin m e)) = Return line ->
  exists n,
    displayed_amount line = Some n
    /\ (0 <= e -> n = 100 * m * 2 ^ e)
    /\ (e < 0 -> 2 * Z.abs (100 * m - n * 2 ^ (- e)) <= 2 ^ (- e)).
Proof.
  intros Hnb Hm Hb H. unfold formatStatementLine in H.
  rewrite (is_empty_false _ Hnb) in H. apply Return_inj in H. subst line.
  exists (hundredths m e). split; [|split].
  - unfold displayed_amount.
    rewrite drop_app_length' by (symmetry; apply label_column_width).
    unfold toFixed2. rewrite Hb. rewrite Z.abs_eq by exact Hm.
    destruct (Z.ltb_spec m 0); [lia|]. cbn [app].
    apply read_fixed2_padded. apply hundredths_nonneg. exact Hm.
  - intros He. unfold hundredths. destruct (Z.leb_spec 0 e); [reflexivity|lia].
  - intros He. unfold hundredths. destruct (Z.leb_spec 0 e); [lia|].
    replace (1 - e) with (1 + - e) by lia.
    rewrite Z.pow_add_r by lia. change (2 ^ 1) with 2.
    assert (0 < 2 ^ (- e)) as Hd by (apply Z.pow_pos_nonneg; lia).
    revert Hd. generalize (2 ^ (- e)). intros d Hd.
    pose proof (Z.div_mod (200 * m + d) (2 * d) ltac:(lia)) as Hq.
    pose proof (Z.mod_pos_bound (200 * m + d) (2 * d) ltac:(lia)) as Hr.
    nia.
Qed.

Lemma line_amount_round_trip_witness :
  exists n,
    displayed_amount (js "2001: A Space Odyssey             0.38") = Some n
    /\ (0 <= -3 -> n = 100 * 3 * 2 ^ (-3))
    /\ (-3 < 0 -> 2 * Z.abs (100 * 3 - n * 2 ^ (- -3)) <= 2 ^ (- -3)).
Proof.
  apply (line_amount_round_trip no_exponent_notation (js "2001: A Space Odyssey") 3 (-3)).
  - discriminate.
  - lia.
  - reflexivity.
  - vm_compute. reflexivity.
Defined.

(** ** Movie IDs that name an inherited property *)

Lemma pricing_errors (mv : movie_ref) (d : number) out e :
  calculateRentalCharge mv d = (out, Throw e) -> e = InvalidInput d \/ e = TypeError.
Proof.
  unfold calculateRentalCharge, throw, console_log, mbind, mret, eff_bind, eff_ret.
  destruct (negb (Num.is_integer d) || Num.lt d (Num.of_Z 1)); [intros H; left; congruence|].
  destruct (get chargeCalculators (string_of (movie_code mv))); try discriminate.
  unfold call_inherited. case_decide; [discriminate|]. intros Heq. right. congruence.
Qed.

(** Only a rental whose ID resolves to nothing is reported as not found. *)
Lemma process_rentals_not_found
    (movies : gmap jsstring Movie) (rs : list Rental) (acc : totals) out (id : jsstring) :
  process_rentals movies rs acc = (out, Throw (MovieNotFound id)) ->
  exists r, r ∈ rs /\ movieID r = id /\ lookup_movie movies r = None.
Proof.
  revert acc out. induction rs as [|r rs IH]; intros acc out H; [discriminate|].
  destruct (lookup_movie movies r) as [mv|] eqn:Hm.
  - destruct (calculateRentalCharge mv (days r)) as [o [v|e]] eqn:Hc.
    + rewrite (process_rentals_step _ _ _ _ _ _ _ Hm Hc) in H.
      destruct (process_rentals movies rs (accumulate acc (mv, v))) as [o' res] eqn:Hrest.
      cbn [fst snd] in H. assert (res = Throw (MovieNotFound id)) as -> by congruence.
      destruct (IH _ _ Hrest) as (r' & Hin & Hid & Hnone).
      exists r'. split; [apply elem_of_cons; right; exact Hin|]. split; assumption.
    + rewrite (process_rentals_throw _ _ _ _ _ _ _ Hm Hc) in H.
      destruct (pricing_errors _ _ _ _ Hc) as [-> | ->]; discriminate.
  - rewrite process_rentals_missing in H by exact Hm.
    exists r. split; [apply elem_of_cons; left; reflexivity|].
    split; [congruence|exact Hm].
Qed.

Lemma format_errors (engine : number -> jsstring) label amount e :
  formatStatementLine engine label amount = Throw e -> e = TypeError.
Proof.
  unfold formatStatementLine. destruct label as [label|]; [|congruence].
  destruct (Str.is_empty (Str.trim label)); [discriminate|].
  destruct amount; [discriminate|congruence].
Qed.

Lemma format_all_errors (engine : number -> jsstring) (ss : list RentalSummary) out e :
  mapM (fun r => lift (formatStatementLine engine (summary_title r) (summary_amount r))) ss
  = (out, Throw e) ->
  e = TypeError.
Proof.
  revert out. induction ss as [|r ss IH]; intros out H; [discriminate|].
  cbn [mapM] in H. unfold mbind, mret, eff_bind, eff_ret, lift in H.
  destruct (formatStatementLine engine (summary_title r) (summary_amount r)) as [line|e']
    eqn:Hl.
  - destruct (mapM _ ss) as [o [ls|e']] eqn:Hrest; [discriminate|].
    assert (e' = e) as -> by congruence. exact (IH _ eq_refl).
  - assert (e' = e) as -> by congruence. exact (format_errors _ _ _ _ Hl).
Qed.

(** A statement fails in the loop over the rentals, or with a [TypeError]
    while its lines are formatted. *)
Lemma statement_lines_errors
    (engine : number -> jsstring) (customer : Customer) (movies : gmap jsstring Movie) out e :
  statement_lines engine customer movies = (out, Throw e) ->
  process_rentals movies (rentals customer) initial_totals = (out, Throw e) \/ e = TypeError.
Proof.
  unfold statement_lines. fold initial_totals. intros H.
  destruct (process_rentals movies (rentals customer) initial_totals) as [o [acc|e']] eqn:Hloop.
  - right. unfold mbind, mret, eff_bind, eff_ret in H.
    rewrite !separator_formats, owed_line in H. unfold lift at 1 in H.
    destruct (mapM _ _) as [o' [body|e']] eqn:Hbody.
    + discriminate H.
    + assert (e' = e) as -> by congruence. exact (format_all_errors _ _ _ _ Hbody).
  - left. unfold mbind, eff_bind in H. congruence.
Qed.

(** X13. A rental whose ID is no entry of the catalog but names a member of
    [Object.prototype] (["toString"], ["constructor"], ...) is not reported
    as a missing movie: the lookup finds the inherited member. The statement
    is not produced either, since that member has no title; the call fails
    with another error. *)
Theorem inherited_movie_id
    (engine : number -> jsstring) (customer : Customer) (movies : gmap jsstring Movie)
    (r : Rental) :
  r ∈ rentals customer ->
  movies !! movieID r = None ->
  movieID r ∈ object_prototype_names ->
  exists out e,
    statement engine customer movies = (out, Throw e)
    /\ e <> MovieNotFound (movieID r).
Proof.
  intros Hin Hown Hproto.
  assert (lookup_movie movies r = Some (MovieInherited (movieID r))) as Hlook.
  { unfold lookup_movie, get. rewrite Hown. destruct (decide _); [reflexivity|contradiction]. }
  rewrite statement_of_lines.
  destruct (statement_lines engine customer movies) as [out [lines|e]] eqn:Hl.
  - exfalso.
    destruct (statement_lines_inv engine _ _ _ _ Hl) as (mcs & body & owed & Hpriced & Hbody & _).
    apply list_elem_of_lookup in Hin as [i Hi].
    destruct (Forall2_lookup_l _ _ _ _ _ Hpriced Hi) as ([mv v] & Hmc & Hm & _).
    cbn [fst] in Hm. rewrite Hlook in Hm. assert (mv = MovieInherited (movieID r)) as -> by congruence.
    destruct (Forall2_lookup_l _ _ _ _ _ Hbody Hmc) as (line & _ & Hfmt).
    discriminate Hfmt.
  - exists out, e. split; [reflexivity|]. intros ->.
    destruct (statement_lines_errors _ _ _ _ _ Hl) as [Hloop|Hty]; [|discriminate Hty].
    destruct (process_rentals_not_found _ _ _ _ _ Hloop) as (r' & _ & Hid & Hnone).
    unfold lookup_movie in Hnone, Hlook. rewrite Hid in Hnone. rewrite Hnone in Hlook.
    discriminate Hlook.
Qed.

Lemma inherited_movie_id_witness :
  exists out e,
    statement no_exponent_notation
      {| name := js "martin";
         rentals := [ {| movieID := js "toString"; days := Num.of_Z 1 |} ] |}
      scenario_catalog
    = (out, Throw e)
    /\ e <> MovieNotFound (js "toString").
Proof.
  apply (inherited_movie_id no_exponent_notation
           {| name := js "martin";
              rentals := [ {| movieID := js "toString"; days := Num.of_Z 1 |} ] |}
           scenario_catalog {| movieID := js "toString"; days := Num.of_Z 1 |}).
  - apply elem_of_cons. left. reflexivity.
  - vm_compute. reflexivity.
  - unfold object_prototype_names. rewrite !elem_of_cons.
    do 8 right. left. reflexivity.
Defined.
